(** * hahomematic: dynamic caches and the dimmer command layer

    A shallow embedding of
      - hahomematic/caches/dynamic.py
          (DeviceDetailsCache, CentralDataCache, PingPongCache)
      - hahomematic/platforms/custom/light.py
          (CeDimmer.turn_on / is_state_change, _recalc_unit_timer,
           _convert_color)
    followed by the properties the specification states about them.

    Conventions.
      - A [datetime] is the number of microseconds since a fixed origin
        (a [Z]); a [timedelta] is a difference of two of them, and its
        [days]/[seconds]/[microseconds] fields are the normalised ones of
        Python (0 <= seconds < 86400, 0 <= microseconds < 10^6).
      - A Python [float] is an exact rational ([Q]); [int(x)] truncates
        towards zero.
      - A [dict] is a [gmap], a [set] a [gset]. *)

From Stdlib Require Import ZArith QArith Lia List Ascii String.
From stdpp Require Import base gmap strings list fin_maps fin_sets.

#[local] Open Scope Z_scope.

(* ===================================================================== *)
(** * datetime                                                            *)
(* ===================================================================== *)

Module DateTime.

(** Microseconds since the origin. *)
Abbreviation datetime := Z (only parsing).

Definition us_per_second : Z := 1000000.
Definition seconds_per_day : Z := 86400.

(** [timedelta], kept as its total number of microseconds. *)
Abbreviation timedelta := Z (only parsing).

(** [a - b] on datetimes. *)
Definition sub (a b : datetime) : timedelta := a - b.

(** [delta.days], [delta.seconds], [delta.microseconds]: Python keeps a
    timedelta normalised, so [seconds] is the remainder below one day
    and not the total. *)
Definition days (d : timedelta) : Z := (d / us_per_second) / seconds_per_day.
Definition seconds (d : timedelta) : Z := (d / us_per_second) mod seconds_per_day.
Definition microseconds (d : timedelta) : Z := d mod us_per_second.

(** A whole number of seconds as a duration. *)
Definition of_seconds (s : Z) : timedelta := s * us_per_second.

End DateTime.

(* ===================================================================== *)
(** * PingPongCache                                                       *)
(* ===================================================================== *)

Module PingPong.
Import DateTime.

(** [InterfaceEventType], the two members the cache uses. *)
Inductive InterfaceEventType : Type :=
| PENDING_PONG
| UNKNOWN_PONG.

#[global] Instance InterfaceEventType_eq_dec : EqDecision InterfaceEventType.
Proof. solve_decision. Defined.

(** What leaves the cache: a call of [central.fire_ha_event_callback]
    (interface id and instance name are fixed per cache, so an event is
    its kind and its mismatch count), or a [_LOGGER.warning]. *)
Inductive Effect : Type :=
| Fire (event_type : InterfaceEventType) (mismatch_count : Z)
| Warn (event_type : InterfaceEventType).

#[global] Instance Effect_eq_dec : EqDecision Effect.
Proof. solve_decision. Defined.

Record PingPongCache : Type := mkPingPongCache {
  _allowed_delta : Z;
  _ttl : Z;
  _pending_pongs : gset datetime;
  _unknown_pongs : gset datetime;
  _pending_pong_logged : bool;
  _unknown_pong_logged : bool;
}.

(** [__init__]: [assert ttl > 0] is the caller's obligation. *)
Definition init (allowed_delta ttl : Z) : PingPongCache :=
  {| _allowed_delta := allowed_delta;
     _ttl := ttl;
     _pending_pongs := ∅;
     _unknown_pongs := ∅;
     _pending_pong_logged := false;
     _unknown_pong_logged := false |}.

Definition set_pending (f : gset datetime -> gset datetime) (c : PingPongCache) :=
  {| _allowed_delta := _allowed_delta c;
     _ttl := _ttl c;
     _pending_pongs := f (_pending_pongs c);
     _unknown_pongs := _unknown_pongs c;
     _pending_pong_logged := _pending_pong_logged c;
     _unknown_pong_logged := _unknown_pong_logged c |}.

Definition set_unknown (f : gset datetime -> gset datetime) (c : PingPongCache) :=
  {| _allowed_delta := _allowed_delta c;
     _ttl := _ttl c;
     _pending_pongs := _pending_pongs c;
     _unknown_pongs := f (_unknown_pongs c);
     _pending_pong_logged := _pending_pong_logged c;
     _unknown_pong_logged := _unknown_pong_logged c |}.

Definition set_pending_logged (b : bool) (c : PingPongCache) :=
  {| _allowed_delta := _allowed_delta c;
     _ttl := _ttl c;
     _pending_pongs := _pending_pongs c;
     _unknown_pongs := _unknown_pongs c;
     _pending_pong_logged := b;
     _unknown_pong_logged := _unknown_pong_logged c |}.

Definition set_unknown_logged (b : bool) (c : PingPongCache) :=
  {| _allowed_delta := _allowed_delta c;
     _ttl := _ttl c;
     _pending_pongs := _pending_pongs c;
     _unknown_pongs := _unknown_pongs c;
     _pending_pong_logged := _pending_pong_logged c;
     _unknown_pong_logged := b |}.

(** ** The method monad

    A method reads the clock ([datetime.now()]), reads and writes the
    fields of [self], and emits effects.  One method call observes one
    clock reading. *)
Definition M (A : Type) : Type :=
  datetime -> PingPongCache -> A * PingPongCache * list Effect.

Definition ret {A} (a : A) : M A := fun _ c => (a, c, []).

Definition bind {A B} (m : M A) (k : A -> M B) : M B :=
  fun now c =>
    let '(a, c1, e1) := m now c in
    let '(b, c2, e2) := k a now c1 in
    (b, c2, e1 ++ e2).

Definition datetime_now : M datetime := fun now c => (now, c, []).
Definition self : M PingPongCache := fun _ c => (c, c, []).
Definition update (f : PingPongCache -> PingPongCache) : M unit :=
  fun _ c => (tt, f c, []).
Definition emit (e : Effect) : M unit := fun _ c => (tt, c, [e]).
Definition when (b : bool) (m : M unit) : M unit := if b then m else ret tt.

#[global] Instance M_ret : MRet M := @ret.
#[global] Instance M_bind : MBind M := fun A B k m => bind m k.

(** Result, final cache and effects of a call made at [now]. *)
Definition value {A} (r : A * PingPongCache * list Effect) : A := fst (fst r).
Definition cache {A} (r : A * PingPongCache * list Effect) : PingPongCache :=
  snd (fst r).
Definition effects {A} (r : A * PingPongCache * list Effect) : list Effect :=
  snd r.

(** ** Expiry sweep *)

(** [delta.seconds > self._ttl] for [delta = dt_now - pong_ts]. *)
Definition expired (ttl : Z) (dt_now pong_ts : datetime) : bool :=
  bool_decide (ttl < seconds (sub dt_now pong_ts)).

(** The loop [for pong_ts in list(s): if ...: s.remove(pong_ts)]: it
    walks a snapshot of the set and removes from the set itself. *)
Definition cleanup (ttl : Z) (dt_now : datetime) (s : gset datetime)
  : gset datetime :=
  foldr (fun pong_ts acc =>
           if expired ttl dt_now pong_ts then acc ∖ {[pong_ts]} else acc)
        s (elements s).

Definition _cleanup_pending_pongs : M unit :=
  dt_now ← datetime_now;
  c ← self;
  update (set_pending (cleanup (_ttl c) dt_now)).

Definition _cleanup_unknown_pongs : M unit :=
  dt_now ← datetime_now;
  c ← self;
  update (set_unknown (cleanup (_ttl c) dt_now)).

(** ** Accessors *)

Definition len (s : gset datetime) : Z := Z.of_nat (size s).

Definition high_pending_pongs : M bool :=
  _cleanup_pending_pongs;;
  c ← self;
  ret (bool_decide (_allowed_delta c < len (_pending_pongs c))).

Definition high_unknown_pongs : M bool :=
  _cleanup_unknown_pongs;;
  c ← self;
  ret (bool_decide (_allowed_delta c < len (_unknown_pongs c))).

(** [len(s) < allowed_delta / 2] with [/] the true division: for
    integers this is [2 * len(s) < allowed_delta]. *)
Definition low_pending_pongs : M bool :=
  _cleanup_pending_pongs;;
  c ← self;
  ret (bool_decide (2 * len (_pending_pongs c) < _allowed_delta c)).

Definition low_unknown_pongs : M bool :=
  _cleanup_unknown_pongs;;
  c ← self;
  ret (bool_decide (2 * len (_unknown_pongs c) < _allowed_delta c)).

Definition pending_pong_count : M Z :=
  c ← self; ret (len (_pending_pongs c)).

Definition unknown_pong_count : M Z :=
  c ← self; ret (len (_unknown_pongs c)).

Definition clear : M unit :=
  update (fun c =>
    {| _allowed_delta := _allowed_delta c;
       _ttl := _ttl c;
       _pending_pongs := ∅;
       _unknown_pongs := ∅;
       _pending_pong_logged := false;
       _unknown_pong_logged := false |}).

(** ** Event policy *)

(** [a and b] with [a] a method call: [a] runs, [b] is pure. *)
Definition and_then (a : M bool) (b : bool) : M bool :=
  x ← a; ret (x && b).

Definition is_kind (a b : InterfaceEventType) : bool := bool_decide (a = b).

Definition _check_and_fire_pong_event
    (event_type : InterfaceEventType) (pong_mismatch_count : Z) : M unit :=
  let _fire_event (mismatch_count : Z) : M unit :=
    emit (Fire event_type mismatch_count) in
  b1 ← and_then low_pending_pongs (is_kind event_type PENDING_PONG);
  if b1 : bool then
    (_fire_event 0;;
     update (set_pending_logged false) : M unit)
  else
  b2 ← and_then low_unknown_pongs (is_kind event_type UNKNOWN_PONG);
  if b2 : bool then
    update (set_unknown_logged false)
  else
  b3 ← and_then high_pending_pongs (is_kind event_type PENDING_PONG);
  when b3 (
    _fire_event pong_mismatch_count;;
    c ← self;
    when (negb (_pending_pong_logged c)) (emit (Warn PENDING_PONG));;
    update (set_pending_logged true));;
  b4 ← and_then high_unknown_pongs (is_kind event_type UNKNOWN_PONG);
  when b4 (
    c ← self;
    when (negb (_unknown_pong_logged c)) (emit (Warn UNKNOWN_PONG));;
    update (set_unknown_logged true)).

(** ** Keep-alive handlers *)

Definition handle_send_ping (ping_ts : datetime) : M unit :=
  update (set_pending (fun s => {[ping_ts]} ∪ s));;
  n ← pending_pong_count;
  _check_and_fire_pong_event PENDING_PONG n.

Definition handle_received_pong (pong_ts : datetime) : M unit :=
  c ← self;
  if bool_decide (pong_ts ∈ _pending_pongs c) then
    update (set_pending (fun s => s ∖ {[pong_ts]}));;
    n ← pending_pong_count;
    _check_and_fire_pong_event PENDING_PONG n
  else
    update (set_unknown (fun s => {[pong_ts]} ∪ s));;
    n ← unknown_pong_count;
    _check_and_fire_pong_event UNKNOWN_PONG n.

(** ** Runs of keep-alive exchanges *)

(** One call of a handler, with the clock reading it is made at. *)
Inductive Call : Type :=
| SendPing (now : datetime) (ping_ts : datetime)
| ReceivedPong (now : datetime) (pong_ts : datetime).

Definition step (k : Call) (c : PingPongCache) : PingPongCache * list Effect :=
  match k with
  | SendPing now ts =>
      let r := handle_send_ping ts now c in (cache r, effects r)
  | ReceivedPong now ts =>
      let r := handle_received_pong ts now c in (cache r, effects r)
  end.

(** The calls of [ks], first to last; the effects in order. *)
Fixpoint run (ks : list Call) (c : PingPongCache) : PingPongCache * list Effect :=
  match ks with
  | [] => (c, [])
  | k :: ks' =>
      let '(c1, e1) := step k c in
      let '(c2, e2) := run ks' c1 in
      (c2, e1 ++ e2)
  end.

(** ** The policy, outcome by outcome

    What one evaluation of [_check_and_fire_pong_event] amounts to, as a
    table; [check_pending_run] and [check_unknown_run] below prove that
    the method computes exactly this. *)

Definition check_pending_result (cnt : Z) (now : datetime) (c : PingPongCache)
  : unit * PingPongCache * list Effect :=
  let P := cleanup (_ttl c) now (_pending_pongs c) in
  let U := cleanup (_ttl c) now (_unknown_pongs c) in
  if bool_decide (2 * len P < _allowed_delta c) then
    (tt, mkPingPongCache (_allowed_delta c) (_ttl c) P (_unknown_pongs c)
           false (_unknown_pong_logged c),
     [Fire PENDING_PONG 0])
  else if bool_decide (_allowed_delta c < len P) then
    (tt, mkPingPongCache (_allowed_delta c) (_ttl c) P U
           true (_unknown_pong_logged c),
     Fire PENDING_PONG cnt ::
       (if _pending_pong_logged c then [] else [Warn PENDING_PONG]))
  else
    (tt, mkPingPongCache (_allowed_delta c) (_ttl c) P U
           (_pending_pong_logged c) (_unknown_pong_logged c),
     []).

Definition check_unknown_result (now : datetime) (c : PingPongCache)
  : unit * PingPongCache * list Effect :=
  let P := cleanup (_ttl c) now (_pending_pongs c) in
  let U := cleanup (_ttl c) now (_unknown_pongs c) in
  if bool_decide (2 * len U < _allowed_delta c) then
    (tt, mkPingPongCache (_allowed_delta c) (_ttl c) P U
           (_pending_pong_logged c) false,
     [])
  else if bool_decide (_allowed_delta c < len U) then
    (tt, mkPingPongCache (_allowed_delta c) (_ttl c) P U
           (_pending_pong_logged c) true,
     if _unknown_pong_logged c then [] else [Warn UNKNOWN_PONG])
  else
    (tt, mkPingPongCache (_allowed_delta c) (_ttl c) P U
           (_pending_pong_logged c) (_unknown_pong_logged c),
     []).

(** ** Evaluations in a row *)

(** The set an event kind counts, and its logged flag. *)
Definition counted (k : InterfaceEventType) (c : PingPongCache) : gset datetime :=
  match k with
  | PENDING_PONG => _pending_pongs c
  | UNKNOWN_PONG => _unknown_pongs c
  end.

Definition logged (k : InterfaceEventType) (c : PingPongCache) : bool :=
  match k with
  | PENDING_PONG => _pending_pong_logged c
  | UNKNOWN_PONG => _unknown_pong_logged c
  end.

(** The live (non-expired) count of a kind at [now]. *)
Definition live_count (k : InterfaceEventType) (now : datetime)
    (c : PingPongCache) : Z :=
  len (cleanup (_ttl c) now (counted k c)).

(** Evaluations of one kind, each with its clock reading and the count
    handed to it. *)
Fixpoint evaluate (k : InterfaceEventType) (evals : list (datetime * Z))
    (c : PingPongCache) : PingPongCache * list Effect :=
  match evals with
  | [] => (c, [])
  | (now, cnt) :: evals' =>
      let r := _check_and_fire_pong_event k cnt now c in
      let '(c2, e2) := evaluate k evals' (cache r) in
      (c2, effects r ++ e2)
  end.

(** No evaluation of the row finds the live count below half the
    threshold. *)
Fixpoint never_low (k : InterfaceEventType) (evals : list (datetime * Z))
    (c : PingPongCache) : Prop :=
  match evals with
  | [] => True
  | (now, cnt) :: evals' =>
      ¬ (2 * live_count k now c < _allowed_delta c) ∧
      never_low k evals' (cache (_check_and_fire_pong_event k cnt now c))
  end.

Definition is_warn (k : InterfaceEventType) (e : Effect) : bool :=
  match e with
  | Warn k' => bool_decide (k = k')
  | Fire _ _ => false
  end.

Definition warnings (k : InterfaceEventType) (es : list Effect) : nat :=
  length (List.filter (is_warn k) es).

(** Pings sent, and pongs received, one call each; a pair is the clock
    reading of the call and the timestamp it carries. *)
Definition send_all (pings : list (datetime * datetime)) : list Call :=
  map (fun p => SendPing (fst p) (snd p)) pings.

Definition receive_all (pongs : list (datetime * datetime)) : list Call :=
  map (fun p => ReceivedPong (fst p) (snd p)) pongs.

(** None of the timestamps [tss] is expired at any of the readings
    [nows]. *)
Definition fresh_at (ttl : Z) (nows tss : list datetime) : Prop :=
  ∀ now ts, now ∈ nows → ts ∈ tss → expired ttl now ts = false.

(** No entry is expired when a ping is sent: at each call of [pings],
    neither the timestamp it inserts nor any of [held] and the ones
    inserted before it. *)
Fixpoint fresh_sends (ttl : Z) (held : gset datetime)
    (pings : list (datetime * datetime)) : Prop :=
  match pings with
  | [] => True
  | p :: pings' =>
      (∀ x, x ∈ {[snd p]} ∪ held → expired ttl (fst p) x = false)
      ∧ fresh_sends ttl ({[snd p]} ∪ held) pings'
  end.

(** ** Sample caches *)

(** A cache that sent one ping stamped 0 at time 0. *)
Definition one_ping : PingPongCache := cache (handle_send_ping 0 0 (init 10 300)).

(** A fresh cache with threshold 0; and a cache with threshold 1 that
    was sent three pings, one second apart. *)
Definition threshold_zero : PingPongCache := init 0 300.

Definition three_pings : PingPongCache :=
  fst (run [SendPing 0 0; SendPing (of_seconds 1) (of_seconds 1);
            SendPing (of_seconds 2) (of_seconds 2)] (init 1 300)).

(** Three pings, each stamped with the time it is sent at. *)
Definition three_fresh_pings : list (datetime * datetime) :=
  [(0, 0); (of_seconds 1, of_seconds 1); (of_seconds 2, of_seconds 2)].

(** The cache after one unsolicited pong stamped 5 s. *)
Definition one_unknown_pong : PingPongCache :=
  cache (handle_received_pong (of_seconds 5) (of_seconds 5) (init 10 300)).

End PingPong.

(* ===================================================================== *)
(** * The staleness test                                                  *)
(* ===================================================================== *)

Module Support.
Import DateTime.

(** Modelled from the spec: [hahomematic.support.changed_within_seconds]
    is not among the sources.  The specification gives the staleness
    test as [is_stale(last_refreshed, max_age) := now() - last_refreshed
    > max_age]; a value has changed within [max_age] seconds when it is
    not stale.  [max_age] is a number of seconds that may be a half
    ([MAX_CACHE_AGE / 2]); it is given here as the duration it denotes. *)
Definition is_stale (now last_refreshed : datetime) (max_age : timedelta) : bool :=
  bool_decide (max_age < sub now last_refreshed).

Definition changed_within_seconds (now last_change : datetime)
    (max_age : timedelta) : bool :=
  negb (is_stale now last_change max_age).

End Support.

(* ===================================================================== *)
(** * DeviceDetailsCache                                                  *)
(* ===================================================================== *)

Module DeviceDetails.
Import DateTime Support.

(** [HmDevice], as far as the cache reads it: the device address and
    the addresses of its channels. *)
Record HmDevice : Type := mkHmDevice {
  device_address : string;
  channels : list string;
}.

Record DeviceDetailsCache : Type := mkDeviceDetailsCache {
  _channel_rooms : gmap string (gset string);
  _device_channel_ids : gmap string string;
  _functions : gmap string (gset string);
  _interface_cache : gmap string string;
  _names_cache : gmap string string;
  _last_refreshed : datetime;
}.

(** A callback the backend makes on the cache while it serves
    [fetch_device_details]. *)
Inductive DetailCallback : Type :=
| AddName (address name : string)
| AddInterface (address interface : string)
| AddDeviceChannelId (address channel_id : string).

(** The primary client, as far as [load] uses it. *)
Record Client : Type := mkClient {
  fetch_device_details : list DetailCallback;
  get_all_rooms : gmap string (gset string);
  get_all_functions : gmap string (gset string);
}.

Inductive BackendCall : Type :=
| FetchDeviceDetails
| GetAllRooms
| GetAllFunctions.

Section WithConstants.
(** [hahomematic.const]: [INIT_DATETIME], [MAX_CACHE_AGE] (seconds)
    and [InterfaceName.BIDCOS_RF]. *)
Variable INIT_DATETIME : datetime.
Variable MAX_CACHE_AGE : Z.
Variable BIDCOS_RF : string.

Definition init : DeviceDetailsCache :=
  mkDeviceDetailsCache ∅ ∅ ∅ ∅ ∅ INIT_DATETIME.

Definition add_name (address name : string) (c : DeviceDetailsCache) :=
  match _names_cache c !! address with
  | Some _ => c
  | None =>
      mkDeviceDetailsCache (_channel_rooms c) (_device_channel_ids c)
        (_functions c) (_interface_cache c)
        (<[address := name]> (_names_cache c)) (_last_refreshed c)
  end.

Definition get_name (c : DeviceDetailsCache) (address : string) : option string :=
  _names_cache c !! address.

Definition add_interface (address interface : string) (c : DeviceDetailsCache) :=
  match _interface_cache c !! address with
  | Some _ => c
  | None =>
      mkDeviceDetailsCache (_channel_rooms c) (_device_channel_ids c)
        (_functions c) (<[address := interface]> (_interface_cache c))
        (_names_cache c) (_last_refreshed c)
  end.

(** [self._interface_cache.get(address) or InterfaceName.BIDCOS_RF]:
    the default also replaces an empty interface name. *)
Definition get_interface (c : DeviceDetailsCache) (address : string) : string :=
  match _interface_cache c !! address with
  | Some interface => if String.eqb interface EmptyString then BIDCOS_RF else interface
  | None => BIDCOS_RF
  end.

Definition add_device_channel_id (address channel_id : string)
    (c : DeviceDetailsCache) :=
  mkDeviceDetailsCache (_channel_rooms c)
    (<[address := channel_id]> (_device_channel_ids c))
    (_functions c) (_interface_cache c) (_names_cache c) (_last_refreshed c).

Definition get_channel_rooms (c : DeviceDetailsCache) (channel_address : string)
  : gset string :=
  default ∅ (_channel_rooms c !! channel_address).

(** [if address in names: del names[address]]. *)
Definition del_if_present (address : string) (names : gmap string string)
  : gmap string string :=
  if bool_decide (is_Some (names !! address)) then delete address names
  else names.

Definition remove_device (device : HmDevice) (c : DeviceDetailsCache) :=
  let names := del_if_present (device_address device) (_names_cache c) in
  let names := foldl (fun names channel_address =>
                        del_if_present channel_address names)
                     names (channels device) in
  mkDeviceDetailsCache (_channel_rooms c) (_device_channel_ids c)
    (_functions c) (_interface_cache c) names (_last_refreshed c).

Definition clear (c : DeviceDetailsCache) :=
  mkDeviceDetailsCache ∅ (_device_channel_ids c) ∅ (_interface_cache c)
    ∅ INIT_DATETIME.

Definition callback (cb : DetailCallback) (c : DeviceDetailsCache) :=
  match cb with
  | AddName a n => add_name a n c
  | AddInterface a i => add_interface a i c
  | AddDeviceChannelId a i => add_device_channel_id a i c
  end.

(** [load], at clock reading [now], with [central.primary_client];
    the result lists the backend calls made. *)
Definition load (now : datetime) (primary_client : option Client)
    (c : DeviceDetailsCache) : DeviceDetailsCache * list BackendCall :=
  if changed_within_seconds now (_last_refreshed c)
       (of_seconds MAX_CACHE_AGE / 2)
  then (c, [])
  else
    let c := clear c in
    let '(c, calls) :=
      match primary_client with
      | Some client =>
          (foldl (fun c cb => callback cb c) c (fetch_device_details client),
           [FetchDeviceDetails])
      | None => (c, [])
      end in
    let '(rooms, calls) :=
      match primary_client with
      | Some client => (get_all_rooms client, calls ++ [GetAllRooms])
      | None => (∅, calls)
      end in
    let '(functions, calls) :=
      match primary_client with
      | Some client => (get_all_functions client, calls ++ [GetAllFunctions])
      | None => (∅, calls)
      end in
    (mkDeviceDetailsCache rooms (_device_channel_ids c) functions
       (_interface_cache c) (_names_cache c) now,
     calls).

End WithConstants.

(** ** A sample cache: a device with two channels, and a neighbour *)

Definition sample_device : HmDevice :=
  mkHmDevice "VCU0000001" ["VCU0000001:0"; "VCU0000001:1"].

Definition sample_cache : DeviceDetailsCache :=
  add_interface "VCU0000001" "HmIP-RF"
    (add_name "VCU0000002" "Hallway switch"
       (add_name "VCU0000001:1" "Kitchen dimmer channel"
          (add_name "VCU0000001" "Kitchen dimmer" (init 0)))).

End DeviceDetails.

(* ===================================================================== *)
(** * CentralDataCache                                                    *)
(* ===================================================================== *)

Module CentralData.
Import DateTime Support.

Section WithConstants.
(** The cached values ([Any]), and [hahomematic.const]:
    [NO_CACHE_ENTRY], [INIT_DATETIME], [MAX_CACHE_AGE] (seconds). *)
Context {V : Type}.
Variable NO_CACHE_ENTRY : V.
Variable INIT_DATETIME : datetime.
Variable MAX_CACHE_AGE : Z.

Record CentralDataCache : Type := mkCentralDataCache {
  _value_cache : gmap string V;
  _last_refreshed : datetime;
}.

Definition init : CentralDataCache := mkCentralDataCache ∅ INIT_DATETIME.

Definition clear (c : CentralDataCache) : CentralDataCache :=
  mkCentralDataCache ∅ INIT_DATETIME.

(** The property [is_empty]: its value and the cache it leaves. *)
Definition is_empty (now : datetime) (c : CentralDataCache)
  : bool * CentralDataCache :=
  if bool_decide (size (_value_cache c) = 0%nat) then (true, c)
  else if negb (changed_within_seconds now (_last_refreshed c)
                  (of_seconds MAX_CACHE_AGE))
  then (true, clear c)
  else (false, c).

(** [dict.update]: the new entries win. *)
Definition add_data (now : datetime) (all_device_data : gmap string V)
    (c : CentralDataCache) : CentralDataCache :=
  mkCentralDataCache (all_device_data ∪ _value_cache c) now.

(** [channel_address.replace(':', '%3A')]. *)
Fixpoint replace_colon (s : string) : string :=
  match s with
  | EmptyString => EmptyString
  | String a s' =>
      if Ascii.eqb a ":"%char then ("%3A" ++ replace_colon s')%string
      else String a (replace_colon s')
  end.

Definition key (interface channel_address parameter : string) : string :=
  (interface ++ "." ++ replace_colon channel_address ++ "." ++ parameter)%string.

Definition get_data (now : datetime) (c : CentralDataCache)
    (interface channel_address parameter : string) : V * CentralDataCache :=
  let '(empty, c) := is_empty now c in
  if negb empty then
    (default NO_CACHE_ENTRY
       (_value_cache c !! key interface channel_address parameter), c)
  else (NO_CACHE_ENTRY, c).

(** A connected client, as far as [load] meets it.  The backend client
    is not among the sources: its [fetch_all_device_data] hands what
    it fetched to [add_data], or hands over nothing when the fetch
    fails. *)
Definition Client : Type := option (gmap string V).

Definition fetch_all_device_data (now : datetime) (client : Client)
    (c : CentralDataCache) : CentralDataCache :=
  match client with
  | Some all_device_data => add_data now all_device_data c
  | None => c
  end.

(** [load], at clock reading [now], over [central.clients]; the result
    counts the calls of [fetch_all_device_data]. *)
Definition load (now : datetime) (clients : list Client)
    (c : CentralDataCache) : CentralDataCache * nat :=
  if changed_within_seconds now (_last_refreshed c)
       (of_seconds MAX_CACHE_AGE / 2)
  then (c, 0%nat)
  else
    (foldl (fun c client => fetch_all_device_data now client c)
           (clear c) clients,
     length clients).

End WithConstants.

(** ** A sample cache: one value, refreshed at time 0, sentinel -1,
    a maximum age of 60 seconds *)

Definition sample_cache : CentralDataCache (V:=Z) :=
  add_data 0 {["BidCos-RF.VCU0000001%3A1.LEVEL" := 1]} (init 0).

End CentralData.

(* ===================================================================== *)
(** * Lights: timers, fixed colours, the dimmer                           *)
(* ===================================================================== *)

Module Light.

(** ** Floats and truthiness *)

(** [int(x)] of a float: truncation towards zero. *)
Definition int (x : Q) : Z := Z.quot (Qnum x) (Zpos (Qden x)).

(** [x > y], [x == y] and the truth value of a float. *)
Definition gt (x y : Q) : bool := negb (Qle_bool x y).
Definition float_eq (x y : Q) : bool := Qeq_bool x y.
Definition truthy (x : Q) : bool := negb (Qeq_bool x 0).

Definition _DIMMER_OFF : Q := 0.
Definition _MAX_BRIGHTNESS : Q := 255.
Definition _MIN_BRIGHTNESS : Q := 0.

Inductive TimeUnit : Type := SECONDS | MINUTES | HOURS.

(** The [IntEnum] value; a unit is true when it is not 0. *)
Definition TimeUnit_value (u : TimeUnit) : Z :=
  match u with SECONDS => 0 | MINUTES => 1 | HOURS => 2 end.

Definition unit_truthy (u : option TimeUnit) : bool :=
  match u with
  | Some u => negb (TimeUnit_value u =? 0)
  | None => false
  end.

Inductive FixedColor : Type :=
| BLACK | BLUE | DO_NOT_CARE | GREEN | OLD_VALUE
| PURPLE | RED | TURQUOISE | WHITE | YELLOW.

(** ** Module-level helpers *)

Definition _recalc_unit_timer (time : Q) : Q * option TimeUnit :=
  let ramp_time_unit := SECONDS in
  if float_eq time 111600 then (time, None)
  else
    let '(time, ramp_time_unit) :=
      if gt time 16343 then ((time / 60)%Q, MINUTES)
      else (time, ramp_time_unit) in
    let '(time, ramp_time_unit) :=
      if gt time 16343 then ((time / 60)%Q, HOURS)
      else (time, ramp_time_unit) in
    (time, Some ramp_time_unit).

Definition _convert_color (color : Q * Q) : FixedColor :=
  let hue := int (fst color) in
  if int (snd color) <? 5 then WHITE
  else if (30 <? hue) && (hue <=? 90) then YELLOW
  else if (90 <? hue) && (hue <=? 150) then GREEN
  else if (150 <? hue) && (hue <=? 210) then TURQUOISE
  else if (210 <? hue) && (hue <=? 270) then BLUE
  else if (270 <? hue) && (hue <=? 330) then PURPLE
  else RED.

(** ** Writes *)

(** The sub-entities a command writes to, and what it sends. *)
Inductive Field : Type :=
| LEVEL
| ON_TIME_VALUE
| ON_TIME_UNIT
| RAMP_TIME_VALUE
| RAMP_TIME_UNIT.

Inductive Value : Type :=
| VFloat (x : Q)
| VUnit (u : TimeUnit).

(** One [send_value] handed to the collector. *)
Abbreviation Write := (Field * Value)%type.

(** ** Arguments *)

(** [LightOnArgs]: a key that is not passed is [None]. *)
Record LightOnArgs : Type := mkLightOnArgs {
  brightness : option Z;
  color_temp : option Z;
  effect : option string;
  hs_color : option (Q * Q);
  on_time : option Q;
  ramp_time : option Q;
}.

Definition no_args : LightOnArgs :=
  mkLightOnArgs None None None None None None.

(** The keyword arguments of [is_state_change]: [on], [off] and those
    of the command. *)
Record StateChangeArgs : Type := mkStateChangeArgs {
  on : option bool;
  off : option bool;
  args : LightOnArgs;
}.

Definition present {A} (x : option A) : nat :=
  match x with Some _ => 1 | None => 0 end.

(** [len(kwargs)]. *)
Definition len (kwargs : StateChangeArgs) : nat :=
  (present (on kwargs) + present (off kwargs)
   + present (brightness (args kwargs)) + present (color_temp (args kwargs))
   + present (effect (args kwargs)) + present (hs_color (args kwargs))
   + present (on_time (args kwargs)) + present (ramp_time (args kwargs)))%nat.

(** ** CeDimmer *)

Module CeDimmer.

(** The entity: the value of its LEVEL sub-entity, what its
    [hs_color], [color_temp] and [effect] properties return (None in
    [CeDimmer] itself, overridden by the colour variants), and the
    on-time held by [OnTimeMixin]. *)
Record CeDimmer : Type := mkCeDimmer {
  _e_level_value : option Q;
  hs_color : option (Q * Q);
  color_temp : option Z;
  effect : option string;
  _on_time : option Q;
}.

(** [x or y] on an optional float. *)
Definition or_else (x : option Q) (y : Q) : Q :=
  match x with
  | Some v => if truthy v then v else y
  | None => y
  end.

Definition is_on (e : CeDimmer) : bool :=
  match _e_level_value e with
  | Some v => gt v _DIMMER_OFF
  | None => false
  end.

Definition brightness (e : CeDimmer) : Z :=
  int (or_else (_e_level_value e) _MIN_BRIGHTNESS * _MAX_BRIGHTNESS)%Q.

(** Modelled from the spec: [OnTimeMixin] is not among the sources.
    [get_on_time_and_cleanup] is the take-and-clear operation on the
    held on-time. *)
Definition get_on_time_and_cleanup (e : CeDimmer) : option Q * CeDimmer :=
  (_on_time e,
   mkCeDimmer (_e_level_value e) (hs_color e) (color_temp e) (effect e) None).

(** Modelled from the spec: [CustomEntity.is_state_change], the end of
    the [super()] chain, is not among the sources.  The guard returns
    true at the first field that would change; once the subclass has
    compared every field, nothing is left that would. *)
Definition CustomEntity_is_state_change (e : CeDimmer)
    (kwargs : StateChangeArgs) : bool :=
  false.

(** [x is not None and x != y]. *)
Definition differs {A} (eqb : A → A → bool) (x : option A) (y : option A) : bool :=
  match x with
  | Some v => match y with Some w => negb (eqb v w) | None => true end
  | None => false
  end.

Definition hs_eqb (a b : Q * Q) : bool :=
  float_eq (fst a) (fst b) && float_eq (snd a) (snd b).

Definition is_state_change (e : CeDimmer) (kwargs : StateChangeArgs) : bool :=
  if bool_decide (is_Some (on kwargs)) && negb (is_on e)
     && (len kwargs =? 1)%nat then true
  else if bool_decide (is_Some (off kwargs)) && is_on e
          && (len kwargs =? 1)%nat then true
  else if differs Z.eqb (Light.brightness (args kwargs)) (Some (brightness e))
  then true
  else if differs hs_eqb (Light.hs_color (args kwargs)) (hs_color e) then true
  else if differs Z.eqb (Light.color_temp (args kwargs)) (color_temp e) then true
  else if differs String.eqb (Light.effect (args kwargs)) (effect e) then true
  else if bool_decide (is_Some (ramp_time (args kwargs))) then true
  else if bool_decide (is_Some (on_time (args kwargs))) then true
  else CustomEntity_is_state_change e kwargs.

Definition _set_on_time_value (on_time : Q) : list Write :=
  [(ON_TIME_VALUE, VFloat on_time)].

Definition _set_ramp_time_on_value (ramp_time : Q) : list Write :=
  [(RAMP_TIME_VALUE, VFloat ramp_time)].

Definition _set_ramp_time_off_value (ramp_time : Q) : list Write :=
  _set_ramp_time_on_value ramp_time.

(** The truthy value of an optional float, if any. *)
Definition if_truthy (x : option Q) : option Q :=
  match x with
  | Some v => if truthy v then Some v else None
  | None => None
  end.

(** [if ramp_time := kwargs.get("ramp_time"): ...]. *)
Definition ramp_time_writes (kwargs : LightOnArgs) : list Write :=
  match if_truthy (ramp_time kwargs) with
  | Some ramp_time => _set_ramp_time_on_value ramp_time
  | None => []
  end.

(** [if (on_time := kwargs.get("on_time")) or (on_time :=
    self.get_on_time_and_cleanup()): ...]: the held on-time is taken
    only when none is passed. *)
Definition on_time_writes (e : CeDimmer) (kwargs : LightOnArgs)
  : CeDimmer * list Write :=
  match if_truthy (on_time kwargs) with
  | Some on_time => (e, _set_on_time_value on_time)
  | None =>
      let '(held, e) := get_on_time_and_cleanup e in
      match if_truthy held with
      | Some on_time => (e, _set_on_time_value on_time)
      | None => (e, [])
      end
  end.

(** [turn_on], with its keyword arguments: the entity it leaves and
    the writes it hands to the collector, in order. *)
Definition turn_on (e : CeDimmer) (kwargs : LightOnArgs)
  : CeDimmer * list Write :=
  if negb (is_state_change e (mkStateChangeArgs (Some true) None kwargs))
  then (e, [])
  else
    let w_ramp := ramp_time_writes kwargs in
    let '(e, w_on) := on_time_writes e kwargs in
    let requested :=
      match Light.brightness kwargs with
      | Some b => b
      | None => brightness e
      end in
    let brightness :=
      if requested =? 0 then int _MAX_BRIGHTNESS else requested in
    let level := (inject_Z brightness / _MAX_BRIGHTNESS)%Q in
    (e, w_ramp ++ w_on ++ [(LEVEL, VFloat level)]).

Definition turn_off (e : CeDimmer) (ramp_time : option Q)
  : CeDimmer * list Write :=
  if negb (is_state_change e
             (mkStateChangeArgs None (Some true)
                (mkLightOnArgs None None None None None ramp_time)))
  then (e, [])
  else
    let w_ramp :=
      match if_truthy ramp_time with
      | Some ramp_time => _set_ramp_time_off_value ramp_time
      | None => []
      end in
    (e, w_ramp ++ [(LEVEL, VFloat _DIMMER_OFF)]).

(** The brightness [turn_on] settles on. *)
Definition effective_brightness (e : CeDimmer) (kwargs : LightOnArgs) : Z :=
  let requested :=
    match Light.brightness kwargs with
    | Some b => b
    | None => brightness e
    end in
  if requested =? 0 then 255 else requested.

(** ** Sample calls and entities *)

(** [turn_on(brightness=X)]. *)
Definition only_brightness (X : Z) : LightOnArgs :=
  mkLightOnArgs (Some X) None None None None None.

(** A dimmer at level 0.5: brightness 127. *)
Definition half_lit : CeDimmer := mkCeDimmer (Some 0.5%Q) None None None None.

(** A dimmer that is off, its level unset. *)
Definition unset : CeDimmer := mkCeDimmer None None None None None.

End CeDimmer.

(** ** CeIpRGBWLight and CeIpFixedColorLight: timers with a unit *)

Module CeIpRGBWLight.

Definition _set_on_time_value (on_time : Q) : list Write :=
  let '(on_time, on_time_unit) := _recalc_unit_timer on_time in
  (if unit_truthy on_time_unit then
     match on_time_unit with
     | Some u => [(ON_TIME_UNIT, VUnit u)]
     | None => []
     end
   else [])
  ++ [(ON_TIME_VALUE, VFloat on_time)].

Definition _set_ramp_time_on_value (ramp_time : Q) : list Write :=
  let '(ramp_time, ramp_time_unit) := _recalc_unit_timer ramp_time in
  (if unit_truthy ramp_time_unit then
     match ramp_time_unit with
     | Some u => [(RAMP_TIME_UNIT, VUnit u)]
     | None => []
     end
   else [])
  ++ [(RAMP_TIME_VALUE, VFloat ramp_time)].

End CeIpRGBWLight.

Definition is_unit_write (w : Write) : bool :=
  match fst w with
  | ON_TIME_UNIT | RAMP_TIME_UNIT => true
  | _ => false
  end.

Definition is_level_write (w : Write) : bool :=
  match fst w with
  | LEVEL => true
  | _ => false
  end.

End Light.

(* ===================================================================== *)
(** * PingPongCache: what a run has handled                               *)
(* ===================================================================== *)

Module PingPongRuns.
Import DateTime PingPong.

(** The timestamps a run hands to [handle_send_ping], and those it hands
    to [handle_received_pong]. *)
Fixpoint sent (ks : list Call) : list datetime :=
  match ks with
  | [] => []
  | SendPing _ ts :: ks' => ts :: sent ks'
  | ReceivedPong _ _ :: ks' => sent ks'
  end.

Fixpoint received (ks : list Call) : list datetime :=
  match ks with
  | [] => []
  | SendPing _ _ :: ks' => received ks'
  | ReceivedPong _ ts :: ks' => ts :: received ks'
  end.

(** A cache with threshold 6 holding two pings. *)
Definition two_of_six : PingPongCache :=
  fst (run [SendPing 0 0; SendPing (of_seconds 1) (of_seconds 1)] (init 6 300)).

End PingPongRuns.

(* ===================================================================== *)
(** * DeviceDetailsCache: rooms of a device                               *)
(* ===================================================================== *)

Module DeviceDetailsRooms.
Import DeviceDetails.

(** [channel_address.startswith(device_address)]. *)
Definition startswith (channel_address device_address : string) : bool :=
  String.prefix device_address channel_address.

(** [get_device_rooms]: the loop over [self._channel_rooms.items()] that
    collects the rooms of every channel whose address starts with the
    device address. *)
Definition get_device_rooms (c : DeviceDetailsCache) (device_address : string)
  : gset string :=
  map_fold (fun channel_address channel_rooms rooms =>
              if startswith channel_address device_address
              then rooms ∪ channel_rooms
              else rooms)
           ∅ (_channel_rooms c).

(** The address a callback names, when it is an [add_name]. *)
Definition names_address (cb : DetailCallback) : option string :=
  match cb with
  | AddName address _ => Some address
  | _ => None
  end.

(** A cache with the rooms of two devices whose addresses share a
    prefix. *)
Definition rooms_cache : DeviceDetailsCache :=
  mkDeviceDetailsCache
    {[ "VCU1:1" := {[ "Kitchen" ]};
       "VCU1:2" := {[ "Hall" ]};
       "VCU12:1" := {[ "Cellar" ]} ]}
    ∅ ∅ ∅ ∅ 0.

(** A client that names one device and maps its interface. *)
Definition naming_client : Client :=
  mkClient [AddName "VCU1" "Dimmer"; AddInterface "VCU1" "HmIP-RF"] ∅ ∅.

End DeviceDetailsRooms.

(* ===================================================================== *)
(** * CentralDataCache: characters of a key                               *)
(* ===================================================================== *)

Module CentralDataKeys.

(** [a in s] for a character. *)
Fixpoint has_char (a : ascii) (s : string) : bool :=
  match s with
  | EmptyString => false
  | String b s' => Ascii.eqb a b || has_char a s'
  end.

(** Two clients: the first delivers a level and a state, the second
    delivers the level again. *)
Definition first_client : CentralData.Client (V:=Z) :=
  Some {[ "BidCos-RF.VCU0000001%3A1.LEVEL" := 1; "BidCos-RF.VCU0000002%3A1.STATE" := 0 ]}.

Definition second_client : CentralData.Client (V:=Z) :=
  Some {[ "BidCos-RF.VCU0000001%3A1.LEVEL" := 5 ]}.

End CentralDataKeys.

(* ===================================================================== *)
(** * Lights: the variants of the dimmer, and the switch                  *)
(* ===================================================================== *)

Module LightVariants.
Import Light.

(** [math.floor(x)] of a float. *)
Definition floor (x : Q) : Z := Qnum x / Zpos (Qden x).

(** [round(x)] of a float: to the nearest integer, a tie to the even
    one. *)
Definition round (x : Q) : Z :=
  let f := floor x in
  let twice_rest := 2 * (Qnum x - f * Zpos (Qden x)) in
  if twice_rest <? Zpos (Qden x) then f
  else if Zpos (Qden x) <? twice_rest then f + 1
  else if Z.even f then f else f + 1.

(** What a variant hands to the collector: a write of the dimmer layer
    (LEVEL and the timers), or a [send_value] on one of its own
    sub-entities. *)
Inductive Send : Type :=
| ToDimmer (w : Write)
| ToFixedColor (color : FixedColor)
| ToColorCode (code : Z)
| ToColorLevel (color_level : Q)
| ToHue (hue : Z)
| ToSaturation (saturation : Q)
| ToColorTemperature (kelvin : Z)
| ToEffect (effect : string).

(** ** CeDimmer.turn_on under dynamic dispatch

    [turn_on] of [CeDimmer] calls [self._set_ramp_time_on_value] and
    [self._set_on_time_value]; a variant that overrides them runs the
    same body with its own. *)
Definition turn_on_with
    (_set_ramp_time_on_value _set_on_time_value : Q → list Write)
    (e : CeDimmer.CeDimmer) (kwargs : LightOnArgs)
  : CeDimmer.CeDimmer * list Write :=
  if negb (CeDimmer.is_state_change e (mkStateChangeArgs (Some true) None kwargs))
  then (e, [])
  else
    let w_ramp :=
      match CeDimmer.if_truthy (ramp_time kwargs) with
      | Some ramp_time => _set_ramp_time_on_value ramp_time
      | None => []
      end in
    let '(e, w_on) :=
      match CeDimmer.if_truthy (on_time kwargs) with
      | Some on_time => (e, _set_on_time_value on_time)
      | None =>
          let '(held, e) := CeDimmer.get_on_time_and_cleanup e in
          match CeDimmer.if_truthy held with
          | Some on_time => (e, _set_on_time_value on_time)
          | None => (e, [])
          end
      end in
    let requested :=
      match brightness kwargs with
      | Some b => b
      | None => CeDimmer.brightness e
      end in
    let brightness :=
      if requested =? 0 then int _MAX_BRIGHTNESS else requested in
    let level := (inject_Z brightness / _MAX_BRIGHTNESS)%Q in
    (e, w_ramp ++ w_on ++ [(LEVEL, VFloat level)]).

(** ** CeIpFixedColorLight *)

Module CeIpFixedColorLight.

(** [_FIXED_COLOR_SWITCHER], a colour without an entry is [None]. *)
Definition _FIXED_COLOR_SWITCHER (color : FixedColor) : option (Q * Q) :=
  match color with
  | WHITE => Some (0, 0)%Q
  | RED => Some (0, 100)%Q
  | YELLOW => Some (60, 100)%Q
  | GREEN => Some (120, 100)%Q
  | TURQUOISE => Some (180, 100)%Q
  | BLUE => Some (240, 100)%Q
  | PURPLE => Some (300, 100)%Q
  | BLACK | DO_NOT_CARE | OLD_VALUE => None
  end.

(** [color in _NO_COLOR]. *)
Definition _NO_COLOR (color : FixedColor) : bool :=
  match color with
  | BLACK | DO_NOT_CARE | OLD_VALUE => true
  | _ => false
  end.

(** The entity: the LEVEL value and the held on-time of the dimmer, and
    the value of its COLOR sub-entity. *)
Record CeIpFixedColorLight : Type := mkCeIpFixedColorLight {
  _e_level_value : option Q;
  _on_time : option Q;
  _e_color_value : option FixedColor;
}.

Definition color_name (e : CeIpFixedColorLight) : option FixedColor :=
  _e_color_value e.

Definition hs_color (e : CeIpFixedColorLight) : Q * Q :=
  match _e_color_value e with
  | Some color =>
      match _FIXED_COLOR_SWITCHER color with
      | Some hs_color => hs_color
      | None => (0, 0)%Q
      end
  | None => (0, 0)%Q
  end.

(** The entity as the methods of [CeDimmer] see it. *)
Definition as_dimmer (e : CeIpFixedColorLight) : CeDimmer.CeDimmer :=
  CeDimmer.mkCeDimmer (_e_level_value e) (Some (hs_color e)) None None (_on_time e).

Definition _set_on_time_value (on_time : Q) : list Write :=
  let '(on_time, on_time_unit) := _recalc_unit_timer on_time in
  (if unit_truthy on_time_unit then
     match on_time_unit with
     | Some u => [(ON_TIME_UNIT, VUnit u)]
     | None => []
     end
   else [])
  ++ [(ON_TIME_VALUE, VFloat on_time)].

Definition _set_ramp_time_on_value (ramp_time : Q) : list Write :=
  let '(ramp_time, ramp_time_unit) := _recalc_unit_timer ramp_time in
  (if unit_truthy ramp_time_unit then
     match ramp_time_unit with
     | Some u => [(RAMP_TIME_UNIT, VUnit u)]
     | None => []
     end
   else [])
  ++ [(RAMP_TIME_VALUE, VFloat ramp_time)].

(** The colour part of [turn_on]. *)
Definition color_sends (e : CeIpFixedColorLight) (kwargs : LightOnArgs) : list Send :=
  match Light.hs_color kwargs with
  | Some hs_color => [ToFixedColor (_convert_color hs_color)]
  | None =>
      match color_name e with
      | Some color => if _NO_COLOR color then [ToFixedColor WHITE] else []
      | None => []
      end
  end.

Definition turn_on (e : CeIpFixedColorLight) (kwargs : LightOnArgs)
  : CeIpFixedColorLight * list Send :=
  if negb (CeDimmer.is_state_change (as_dimmer e)
             (mkStateChangeArgs (Some true) None kwargs))
  then (e, [])
  else
    let w_color := color_sends e kwargs in
    let '(d, ws) :=
      turn_on_with _set_ramp_time_on_value _set_on_time_value
        (as_dimmer e) kwargs in
    (mkCeIpFixedColorLight (_e_level_value e) (CeDimmer._on_time d)
       (_e_color_value e),
     w_color ++ map ToDimmer ws).

(** A light that shows no colour, asked for hue 200 at full saturation,
    and asked for nothing. *)
Definition dark : CeIpFixedColorLight :=
  mkCeIpFixedColorLight None None (Some BLACK).

Definition blueish : LightOnArgs :=
  mkLightOnArgs None None None (Some (200, 100)%Q) None None.

End CeIpFixedColorLight.

(** ** CeIpRGBWLight *)

Module CeIpRGBWLight.

Inductive DeviceOperationMode : Type := PWM | RGB | RGBW | TUNABLE_WHITE.

#[global] Instance DeviceOperationMode_eq_dec : EqDecision DeviceOperationMode.
Proof. solve_decision. Defined.

(** The sub-entities [_relevant_entities] chooses from. *)
Inductive Entity : Type :=
| E_HUE | E_LEVEL | E_SATURATION | E_COLOR_TEMPERATURE_KELVIN.

#[global] Instance Entity_eq_dec : EqDecision Entity.
Proof. solve_decision. Defined.

(** The entity: the values of its sub-entities (a mode that is unset or
    none of the four is [None]), the value list of its EFFECT sub-entity
    and the held on-time. *)
Record CeIpRGBWLight : Type := mkCeIpRGBWLight {
  _e_level_value : option Q;
  _on_time : option Q;
  _e_color_temperature_kelvin_value : option Z;
  _e_device_operation_mode_value : option DeviceOperationMode;
  _e_effect_values : list string;
  _e_hue_value : option Z;
  _e_saturation_value : option Q;
}.

(** [1000000 / x] for an integer. *)
Definition million_over (x : Z) : Q := (1000000 / inject_Z x)%Q.

Definition color_temp (e : CeIpRGBWLight) : option Z :=
  match _e_color_temperature_kelvin_value e with
  | Some kelvin => if kelvin =? 0 then None else Some (floor (million_over kelvin))
  | None => None
  end.

Definition hs_color (e : CeIpRGBWLight) : option (Q * Q) :=
  match _e_hue_value e, _e_saturation_value e with
  | Some hue, Some saturation => Some (inject_Z hue, saturation * 100)%Q
  | _, _ => None
  end.

Definition _relevant_entities (e : CeIpRGBWLight) : list Entity :=
  match _e_device_operation_mode_value e with
  | Some RGBW => [E_HUE; E_LEVEL; E_SATURATION; E_COLOR_TEMPERATURE_KELVIN]
  | Some RGB => [E_HUE; E_LEVEL; E_SATURATION]
  | Some TUNABLE_WHITE => [E_LEVEL; E_COLOR_TEMPERATURE_KELVIN]
  | _ => [E_LEVEL]
  end.

Definition supports_color_temperature (e : CeIpRGBWLight) : bool :=
  bool_decide (_e_device_operation_mode_value e = Some TUNABLE_WHITE).

Definition effects (e : CeIpRGBWLight) : list string := _e_effect_values e.

Definition supports_effects (e : CeIpRGBWLight) : bool :=
  negb (bool_decide (_e_device_operation_mode_value e = Some PWM))
  && (0 <? length (effects e))%nat.

Definition supports_hs_color (e : CeIpRGBWLight) : bool :=
  bool_decide (_e_device_operation_mode_value e = Some RGBW)
  || bool_decide (_e_device_operation_mode_value e = Some RGB).

Definition as_dimmer (e : CeIpRGBWLight) : CeDimmer.CeDimmer :=
  CeDimmer.mkCeDimmer (_e_level_value e) (hs_color e) (color_temp e) None
    (_on_time e).

(** The parts of [turn_on] before [super().turn_on]. *)
Definition hs_color_sends (kwargs : LightOnArgs) : list Send :=
  match Light.hs_color kwargs with
  | Some (hue, ksaturation) =>
      [ToHue (int hue); ToSaturation (ksaturation / 100)%Q]
  | None => []
  end.

Definition color_temp_sends (kwargs : LightOnArgs) : list Send :=
  match Light.color_temp kwargs with
  | Some color_temp =>
      if color_temp =? 0 then []
      else [ToColorTemperature (floor (million_over color_temp))]
  | None => []
  end.

Definition not_used_sends (kwargs : LightOnArgs) : list Send :=
  match on_time kwargs, CeDimmer.if_truthy (ramp_time kwargs) with
  | None, Some _ => map ToDimmer (Light.CeIpRGBWLight._set_on_time_value 111600)
  | _, _ => []
  end.

Definition effect_sends (e : CeIpRGBWLight) (kwargs : LightOnArgs) : list Send :=
  if supports_effects e then
    match Light.effect kwargs with
    | Some effect => [ToEffect effect]
    | None => []
    end
  else [].

Definition turn_on (e : CeIpRGBWLight) (kwargs : LightOnArgs)
  : CeIpRGBWLight * list Send :=
  if negb (CeDimmer.is_state_change (as_dimmer e)
             (mkStateChangeArgs (Some true) None kwargs))
  then (e, [])
  else
    let '(d, ws) :=
      turn_on_with Light.CeIpRGBWLight._set_ramp_time_on_value
        Light.CeIpRGBWLight._set_on_time_value (as_dimmer e) kwargs in
    (mkCeIpRGBWLight (_e_level_value e) (CeDimmer._on_time d)
       (_e_color_temperature_kelvin_value e) (_e_device_operation_mode_value e)
       (_e_effect_values e) (_e_hue_value e) (_e_saturation_value e),
     hs_color_sends kwargs ++ color_temp_sends kwargs ++ not_used_sends kwargs
     ++ effect_sends e kwargs ++ map ToDimmer ws).



End CeIpRGBWLight.

(** ** CeColorDimmer *)

Module CeColorDimmer.

(** [hs_color] for the value of the COLOR sub-entity. *)
Definition hs_color (_e_color_value : option Z) : Q * Q :=
  match _e_color_value with
  | Some color =>
      if 200 <=? color then (0, 0)%Q
      else (inject_Z color / 200 * 360, 100)%Q
  | None => (0, 0)%Q
  end.

Definition Qmin (x y : Q) : Q := if Qle_bool x y then x else y.
Definition Qmax (x y : Q) : Q := if Qle_bool y x then x else y.

(** The colour code [turn_on] sends for [hs_color]. *)
Definition color_code (hs_color : Q * Q) : Z :=
  let '(khue, ksaturation) := hs_color in
  let hue := (khue / 360)%Q in
  let saturation := (ksaturation / 100)%Q in
  if gt (1 # 10) saturation then 200
  else int (inject_Z (round (Qmax (Qmin hue 1) 0 * 199)%Q)).

Definition color_sends (kwargs : LightOnArgs) : list Send :=
  match Light.hs_color kwargs with
  | Some hs_color => [ToColorCode (color_code hs_color)]
  | None => []
  end.

End CeColorDimmer.

End LightVariants.

(* ===================================================================== *)
(** * CeSwitch                                                            *)
(* ===================================================================== *)

Module Switch.

(** The entity: the value of its STATE sub-entity and the on-time held
    by [OnTimeMixin]. *)
Record CeSwitch : Type := mkCeSwitch {
  _e_state_value : option bool;
  _on_time : option Q;
}.

(** What the switch hands to the collector. *)
Inductive Send : Type :=
| ToOnTimeValue (on_time : Q)
| StateTurnOn
| StateTurnOff.

Definition value (e : CeSwitch) : option bool := _e_state_value e.

(** The keyword arguments of [is_state_change]. *)
Record StateChangeArgs : Type := mkStateChangeArgs {
  on : option bool;
  off : option bool;
  on_time : option Q;
}.

(** Modelled from the spec: [CustomEntity.is_state_change] is not among
    the sources; as for the dimmer, nothing is left that would change. *)
Definition CustomEntity_is_state_change (e : CeSwitch)
    (kwargs : StateChangeArgs) : bool :=
  false.

Definition is_state_change (e : CeSwitch) (kwargs : StateChangeArgs) : bool :=
  if bool_decide (is_Some (on_time kwargs)) then true
  else if bool_decide (is_Some (on kwargs))
          && negb (bool_decide (value e = Some true)) then true
  else if bool_decide (is_Some (off kwargs))
          && negb (bool_decide (value e = Some false)) then true
  else CustomEntity_is_state_change e kwargs.

(** Modelled from the spec: [OnTimeMixin.get_on_time_and_cleanup], the
    take-and-clear operation on the held on-time. *)
Definition get_on_time_and_cleanup (e : CeSwitch) : option Q * CeSwitch :=
  (_on_time e, mkCeSwitch (_e_state_value e) None).

Definition turn_on (e : CeSwitch) (on_time : option Q) : CeSwitch * list Send :=
  if negb (is_state_change e (mkStateChangeArgs (Some true) None on_time))
  then (e, [])
  else
    match on_time with
    | Some on_time => (e, [ToOnTimeValue on_time; StateTurnOn])
    | None =>
        let '(held, e) := get_on_time_and_cleanup e in
        match Light.CeDimmer.if_truthy held with
        | Some on_time => (e, [ToOnTimeValue on_time; StateTurnOn])
        | None => (e, [StateTurnOn])
        end
    end.

Definition turn_off (e : CeSwitch) : CeSwitch * list Send :=
  if negb (is_state_change e (mkStateChangeArgs None (Some true) None))
  then (e, [])
  else (e, [StateTurnOff]).

(** A switch whose state is not known yet. *)
Definition unknown : CeSwitch := mkCeSwitch None None.

End Switch.

(* ===================================================================== *)
(** * CeColorTempDimmer                                                   *)
(* ===================================================================== *)

Module CeColorTempDimmer.
Import Light LightVariants.

Definition _MAX_MIREDS : Z := 500.
Definition _MIN_MIREDS : Z := 153.

(** [color_temp] for the value of the COLOR_LEVEL sub-entity. *)
Definition color_temp (_e_color_level_value : option Q) : Z :=
  int (inject_Z _MAX_MIREDS
       - inject_Z (_MAX_MIREDS - _MIN_MIREDS)
         * CeDimmer.or_else _e_color_level_value 0)%Q.

(** The colour level [turn_on] sends for [color_temp]. *)
Definition color_level (color_temp : Z) : Q :=
  (inject_Z (_MAX_MIREDS - color_temp) / inject_Z (_MAX_MIREDS - _MIN_MIREDS))%Q.

Definition color_temp_sends (kwargs : LightOnArgs) : list Send :=
  match Light.color_temp kwargs with
  | Some color_temp => [ToColorLevel (color_level color_temp)]
  | None => []
  end.

End CeColorTempDimmer.

(* ===================================================================== *)
(** * Properties of PingPongCache                                         *)
(* ===================================================================== *)

Section PingPongFacts.
Import DateTime PingPong.

(** Unfolding a method down to a triple. *)
Ltac run_method :=
  unfold _check_and_fire_pong_event, handle_send_ping, handle_received_pong,
    and_then, when,
    high_pending_pongs, high_unknown_pongs, low_pending_pongs,
    low_unknown_pongs, pending_pong_count, unknown_pong_count,
    _cleanup_pending_pongs, _cleanup_unknown_pongs,
    mbind, M_bind, bind, mret, M_ret, ret, datetime_now, self, update, emit;
  cbn [fst snd value cache effects].

Ltac run_handler :=
  unfold pending_pong_count, unknown_pong_count,
    mbind, M_bind, bind, mret, M_ret, ret, self, update;
  cbn [fst snd].

(** ** The sweep *)

Lemma elem_of_cleanup_list ttl now (l : list datetime) (acc : gset datetime) x :
  x ∈ foldr (fun pong_ts acc =>
               if expired ttl now pong_ts then acc ∖ {[pong_ts]} else acc)
            acc l
  ↔ x ∈ acc ∧ (x ∈ l → expired ttl now x = false).
Proof.
  induction l as [|y l IH]; cbn [foldr].
  - split; [intros H; split; [exact H | intros Hx; inversion Hx] | tauto].
  - destruct (expired ttl now y) eqn:Ey.
    + rewrite elem_of_difference, IH, elem_of_singleton, elem_of_cons.
      split.
      * intros [[Ha Hl] Hne]. split; [exact Ha|]. intros [->|Hx]; [congruence | auto].
      * intros [Ha Hl]. repeat split; [exact Ha | auto |].
        intros ->. specialize (Hl (or_introl eq_refl)). congruence.
    + rewrite IH, elem_of_cons. split.
      * intros [Ha Hl]. split; [exact Ha|]. intros [->|Hx]; auto.
      * intros [Ha Hl]. split; auto.
Qed.

Lemma elem_of_cleanup ttl now (s : gset datetime) x :
  x ∈ cleanup ttl now s ↔ x ∈ s ∧ expired ttl now x = false.
Proof.
  unfold cleanup. rewrite elem_of_cleanup_list, elem_of_elements. tauto.
Qed.

Lemma cleanup_subseteq ttl now (s : gset datetime) : cleanup ttl now s ⊆ s.
Proof. intros x. rewrite elem_of_cleanup. tauto. Qed.

Lemma cleanup_idemp ttl now (s : gset datetime) :
  cleanup ttl now (cleanup ttl now s) = cleanup ttl now s.
Proof. apply set_eq. intros x. rewrite !elem_of_cleanup. tauto. Qed.

Lemma cleanup_fresh ttl now (s : gset datetime) :
  (∀ x, x ∈ s → expired ttl now x = false) → cleanup ttl now s = s.
Proof.
  intros H. apply set_eq. intros x. rewrite elem_of_cleanup.
  split; [tauto | auto].
Qed.

(** ** Closed forms of the accessors *)

Lemma high_pending_pongs_run now c :
  high_pending_pongs now c =
    (bool_decide (_allowed_delta c < len (cleanup (_ttl c) now (_pending_pongs c))),
     set_pending (cleanup (_ttl c) now) c, []).
Proof. reflexivity. Qed.

Lemma low_pending_pongs_run now c :
  low_pending_pongs now c =
    (bool_decide (2 * len (cleanup (_ttl c) now (_pending_pongs c)) < _allowed_delta c),
     set_pending (cleanup (_ttl c) now) c, []).
Proof. reflexivity. Qed.

Lemma high_unknown_pongs_run now c :
  high_unknown_pongs now c =
    (bool_decide (_allowed_delta c < len (cleanup (_ttl c) now (_unknown_pongs c))),
     set_unknown (cleanup (_ttl c) now) c, []).
Proof. reflexivity. Qed.

Lemma low_unknown_pongs_run now c :
  low_unknown_pongs now c =
    (bool_decide (2 * len (cleanup (_ttl c) now (_unknown_pongs c)) < _allowed_delta c),
     set_unknown (cleanup (_ttl c) now) c, []).
Proof. reflexivity. Qed.

(** ** Closed form of the event policy *)

Lemma check_pending_run cnt now c :
  _check_and_fire_pong_event PENDING_PONG cnt now c = check_pending_result cnt now c.
Proof.
  unfold check_pending_result. run_method.
  destruct c as [D t P U pl ul]; cbn.
  change (is_kind PENDING_PONG PENDING_PONG) with true.
  change (is_kind PENDING_PONG UNKNOWN_PONG) with false.
  rewrite andb_true_r.
  case_bool_decide as Hlow; cbn; [reflexivity|].
  rewrite andb_false_r; cbn.
  rewrite cleanup_idemp, andb_true_r.
  case_bool_decide as Hhigh; cbn.
  - destruct pl; cbn; rewrite andb_false_r; cbn;
      unfold set_unknown, set_pending, set_pending_logged; cbn;
      rewrite ?cleanup_idemp; reflexivity.
  - rewrite andb_false_r; cbn.
    unfold set_unknown, set_pending; cbn. rewrite ?cleanup_idemp. reflexivity.
Qed.

Lemma check_unknown_run cnt now c :
  _check_and_fire_pong_event UNKNOWN_PONG cnt now c = check_unknown_result now c.
Proof.
  unfold check_unknown_result. run_method.
  destruct c as [D t P U pl ul]; cbn.
  change (is_kind UNKNOWN_PONG UNKNOWN_PONG) with true.
  change (is_kind UNKNOWN_PONG PENDING_PONG) with false.
  rewrite andb_false_r; cbn. rewrite andb_true_r.
  case_bool_decide as Hlow; cbn; [reflexivity|].
  rewrite andb_false_r; cbn. rewrite cleanup_idemp, andb_true_r.
  case_bool_decide as Hhigh; cbn.
  - destruct ul; cbn; unfold set_unknown, set_pending, set_unknown_logged; cbn;
      rewrite ?cleanup_idemp; reflexivity.
  - unfold set_unknown, set_pending; cbn. rewrite ?cleanup_idemp. reflexivity.
Qed.

(** ** Closed forms of the handlers *)

Lemma handle_send_ping_run ts now c :
  handle_send_ping ts now c =
    check_pending_result (len ({[ts]} ∪ _pending_pongs c)) now
      (set_pending (fun s => {[ts]} ∪ s) c).
Proof.
  rewrite <- check_pending_run. unfold handle_send_ping. run_handler.
  destruct (_check_and_fire_pong_event _ _ _ _) as [[u c'] e]. destruct u.
  reflexivity.
Qed.

Lemma handle_received_pong_known ts now c :
  ts ∈ _pending_pongs c →
  handle_received_pong ts now c =
    check_pending_result (len (_pending_pongs c ∖ {[ts]})) now
      (set_pending (fun s => s ∖ {[ts]}) c).
Proof.
  intros Hin. rewrite <- check_pending_run. unfold handle_received_pong.
  run_handler. rewrite bool_decide_eq_true_2 by exact Hin.
  destruct (_check_and_fire_pong_event _ _ _ _) as [[u c'] e]. destruct u.
  reflexivity.
Qed.

Lemma handle_received_pong_unknown ts now c :
  ts ∉ _pending_pongs c →
  handle_received_pong ts now c =
    check_unknown_result now (set_unknown (fun s => {[ts]} ∪ s) c).
Proof.
  intros Hin.
  rewrite <- (check_unknown_run (len ({[ts]} ∪ _unknown_pongs c))).
  unfold handle_received_pong.
  run_handler. rewrite bool_decide_eq_false_2 by exact Hin.
  destruct (_check_and_fire_pong_event _ _ _ _) as [[u c'] e]. destruct u.
  reflexivity.
Qed.

Lemma len_nonneg (s : gset datetime) : 0 ≤ len s.
Proof. unfold len. lia. Qed.

(** ** Age of an entry *)

Lemma seconds_within_day (d : timedelta) :
  0 ≤ d < of_seconds seconds_per_day →
  seconds d = d / us_per_second.
Proof.
  unfold seconds, of_seconds, us_per_second, seconds_per_day. intros H.
  apply Z.mod_small. split.
  - apply Z.div_pos; lia.
  - apply Z.div_lt_upper_bound; lia.
Qed.

Lemma expired_after_ttl ttl now ts :
  of_seconds (ttl + 1) ≤ sub now ts < of_seconds seconds_per_day →
  0 ≤ ttl →
  expired ttl now ts = true.
Proof.
  intros H Httl. unfold expired. apply bool_decide_eq_true_2.
  rewrite seconds_within_day.
  - unfold of_seconds, us_per_second in *.
    apply Z.lt_le_trans with (ttl + 1); [lia|].
    apply Z.div_le_lower_bound; lia.
  - unfold of_seconds, us_per_second, seconds_per_day in *. lia.
Qed.

(** ** C1: expiry *)

Example one_ping_pending : _pending_pongs one_ping = {[0]}.
Proof. vm_compute. reflexivity. Qed.

(** C1, as stated, fails in three ways.  With ttl = 300 s and an entry
    stamped 0: [pending_pong_count] read at 1000 s still counts it (the
    count accessors never sweep); [high_pending_pongs] at 300.5 s keeps
    it (whole seconds are compared); [high_pending_pongs] one day and
    10 s later keeps it ([delta.seconds] has wrapped to 10). *)
Lemma C1_counterexample :
  (of_seconds 300 < sub (of_seconds 1000) 0
   ∧ value (pending_pong_count (of_seconds 1000) one_ping) = 1
   ∧ 0 ∈ _pending_pongs (cache (pending_pong_count (of_seconds 1000) one_ping)))
  ∧ (of_seconds 300 < sub 300500000 0
     ∧ 0 ∈ _pending_pongs (cache (high_pending_pongs 300500000 one_ping)))
  ∧ (of_seconds 300 < sub (of_seconds 86410) 0
     ∧ 0 ∈ _pending_pongs (cache (high_pending_pongs (of_seconds 86410) one_ping))).
Proof.
  repeat split; try (vm_compute; reflexivity);
    apply bool_decide_unpack; vm_compute; exact I.
Qed.

(** C1 (amended): whatever the cache holds, an entry stamped [ts] is
    gone from the pending set after [high_pending_pongs] or
    [low_pending_pongs], and from the unknown set after
    [high_unknown_pongs] or [low_unknown_pongs], when the accessor runs
    at least [ttl + 1] whole seconds and less than one day after [ts]. *)
Theorem C1_sweeping_accessors_drop_expired (c : PingPongCache) (now ts : datetime) :
  0 ≤ _ttl c →
  of_seconds (_ttl c + 1) ≤ sub now ts < of_seconds seconds_per_day →
  (ts ∉ _pending_pongs (cache (high_pending_pongs now c)))
  ∧ (ts ∉ _pending_pongs (cache (low_pending_pongs now c)))
  ∧ (ts ∉ _unknown_pongs (cache (high_unknown_pongs now c)))
  ∧ (ts ∉ _unknown_pongs (cache (low_unknown_pongs now c))).
Proof.
  intros Httl Hage.
  pose proof (expired_after_ttl _ _ _ Hage Httl) as Hexp.
  rewrite high_pending_pongs_run, low_pending_pongs_run,
    high_unknown_pongs_run, low_unknown_pongs_run.
  cbn [cache fst snd set_pending set_unknown _pending_pongs _unknown_pongs].
  repeat split; rewrite elem_of_cleanup; intros [_ Hfresh]; congruence.
Qed.

Lemma C1_sweeping_accessors_drop_expired_witness :
  (0 ∉ _pending_pongs (cache (high_pending_pongs (of_seconds 301) one_ping)))
  ∧ (0 ∉ _pending_pongs (cache (low_pending_pongs (of_seconds 301) one_ping)))
  ∧ (0 ∉ _unknown_pongs (cache (high_unknown_pongs (of_seconds 301) one_ping)))
  ∧ (0 ∉ _unknown_pongs (cache (low_unknown_pongs (of_seconds 301) one_ping))).
Proof.
  apply (C1_sweeping_accessors_drop_expired one_ping (of_seconds 301) 0).
  - vm_compute. discriminate.
  - vm_compute. split; [discriminate | reflexivity].
Defined.

(** ** C2: the mismatch policy *)

Lemma warnings_app k (e1 e2 : list Effect) :
  warnings k (e1 ++ e2) = (warnings k e1 + warnings k e2)%nat.
Proof. unfold warnings. rewrite List.filter_app, List.length_app. reflexivity. Qed.

Lemma check_run k cnt now c :
  _check_and_fire_pong_event k cnt now c =
    match k with
    | PENDING_PONG => check_pending_result cnt now c
    | UNKNOWN_PONG => check_unknown_result now c
    end.
Proof. destruct k; [apply check_pending_run | apply check_unknown_run]. Qed.

(** One evaluation with the flag already set and the count not low:
    nothing is logged and the flag stays. *)
Lemma check_logged_quiet k cnt now c :
  logged k c = true →
  ¬ (2 * live_count k now c < _allowed_delta c) →
  warnings k (effects (_check_and_fire_pong_event k cnt now c)) = 0%nat
  ∧ logged k (cache (_check_and_fire_pong_event k cnt now c)) = true.
Proof.
  intros Hlog Hlow. rewrite check_run. unfold live_count in Hlow.
  destruct k; cbn [counted logged] in *;
    unfold check_pending_result, check_unknown_result;
    rewrite (bool_decide_eq_false_2 _ Hlow);
    case_bool_decide; rewrite ?Hlog; cbn; auto.
Qed.

Lemma evaluate_logged_quiet k evals : ∀ c,
  logged k c = true →
  never_low k evals c →
  warnings k (snd (evaluate k evals c)) = 0%nat
  ∧ logged k (fst (evaluate k evals c)) = true.
Proof.
  induction evals as [|[now cnt] evals IH]; intros c Hlog Hnl;
    cbn [evaluate never_low] in *.
  - auto.
  - destruct Hnl as [Hlow Hrest].
    destruct (check_logged_quiet k cnt now c Hlog Hlow) as [Hw Hl].
    destruct (IH _ Hl Hrest) as [Hw' Hl'].
    destruct (evaluate k evals _) as [c2 e2]. cbn [fst snd] in *.
    rewrite warnings_app, Hw, Hw'. auto.
Qed.

Lemma high_not_low (D n : Z) : 0 ≤ n → D < n → ¬ (2 * n < D).
Proof. lia. Qed.

(** One evaluation that finds the count high. *)
Lemma check_high k cnt now c :
  _allowed_delta c < live_count k now c →
  effects (_check_and_fire_pong_event k cnt now c) =
    match k with
    | PENDING_PONG =>
        Fire PENDING_PONG cnt ::
          (if _pending_pong_logged c then [] else [Warn PENDING_PONG])
    | UNKNOWN_PONG =>
        if _unknown_pong_logged c then [] else [Warn UNKNOWN_PONG]
    end
  ∧ logged k (cache (_check_and_fire_pong_event k cnt now c)) = true.
Proof.
  intros Hhigh. rewrite check_run. unfold live_count in Hhigh.
  pose proof (high_not_low _ _ (len_nonneg _) Hhigh) as Hlow.
  destruct k; cbn [counted] in *;
    unfold check_pending_result, check_unknown_result;
    rewrite (bool_decide_eq_false_2 _ Hlow), (bool_decide_eq_true_2 _ Hhigh);
    cbn; auto.
Qed.

(** C2, as stated, fails for UNKNOWN_PONG: with threshold 0 the first
    unsolicited pong makes the live unknown count 1 > 0, the warning is
    logged, and no event reaches the callback.  The count an event
    carries is the size before the sweep: a fourth ping at 302 s finds
    two live entries and fires a PENDING_PONG event carrying 4. *)
Lemma C2_counterexample :
  (let r := handle_received_pong 0 0 threshold_zero in
   _allowed_delta (cache r) < live_count UNKNOWN_PONG 0 (cache r)
   ∧ effects r = [Warn UNKNOWN_PONG])
  ∧ (let r := handle_send_ping (of_seconds 302) (of_seconds 302) three_pings in
     live_count PENDING_PONG (of_seconds 302) (cache r) = 2
     ∧ effects r = [Fire PENDING_PONG 4]).
Proof. vm_compute. repeat split; reflexivity. Qed.

(** C2 (amended).  PENDING_PONG: whenever the live pending count exceeds
    [allowed_delta] at an evaluation, one mismatch event is fired,
    carrying the count handed to the evaluation (for [handle_send_ping]:
    the size of the pending set right after the insertion), and the
    warning is logged iff [pending_pong_logged] was false.  UNKNOWN_PONG:
    whenever the live unknown count exceeds [allowed_delta], no event is
    fired, and the warning is logged iff [unknown_pong_logged] was false.
    Either kind: over a row of evaluations that starts high and never
    finds the count below [allowed_delta / 2], the warning is logged
    once if the flag was clear and not at all if it was set, and the
    flag ends set. *)
Theorem C2_mismatch_policy (c : PingPongCache) (now : datetime) (cnt : Z) :
  (_allowed_delta c < live_count PENDING_PONG now c →
     effects (_check_and_fire_pong_event PENDING_PONG cnt now c) =
       Fire PENDING_PONG cnt ::
         (if _pending_pong_logged c then [] else [Warn PENDING_PONG])
     ∧ _pending_pong_logged
         (cache (_check_and_fire_pong_event PENDING_PONG cnt now c)) = true)
  ∧ (_allowed_delta c < live_count UNKNOWN_PONG now c →
       effects (_check_and_fire_pong_event UNKNOWN_PONG cnt now c) =
         (if _unknown_pong_logged c then [] else [Warn UNKNOWN_PONG])
       ∧ _unknown_pong_logged
           (cache (_check_and_fire_pong_event UNKNOWN_PONG cnt now c)) = true)
  ∧ (∀ ts,
       _allowed_delta c <
         live_count PENDING_PONG now (set_pending (fun s => {[ts]} ∪ s) c) →
       effects (handle_send_ping ts now c) =
         Fire PENDING_PONG (len ({[ts]} ∪ _pending_pongs c)) ::
           (if _pending_pong_logged c then [] else [Warn PENDING_PONG]))
  ∧ (∀ k evals,
       _allowed_delta c < live_count k now c →
       never_low k evals (cache (_check_and_fire_pong_event k cnt now c)) →
       warnings k (snd (evaluate k ((now, cnt) :: evals) c)) =
         (if logged k c then 0%nat else 1%nat)
       ∧ logged k (fst (evaluate k ((now, cnt) :: evals) c)) = true).
Proof.
  split; [|split; [|split]].
  - intros H. exact (check_high PENDING_PONG cnt now c H).
  - intros H. exact (check_high UNKNOWN_PONG cnt now c H).
  - intros ts H. rewrite handle_send_ping_run, <- check_pending_run.
    exact (proj1 (check_high PENDING_PONG _ now _ H)).
  - intros k evals Hhigh Hnl. cbn [evaluate].
    destruct (check_high k cnt now c Hhigh) as [He Hl].
    destruct (evaluate_logged_quiet k evals _ Hl Hnl) as [Hw' Hl'].
    destruct (evaluate k evals _) as [c2 e2]. cbn [fst snd] in *.
    rewrite warnings_app, Hw', He. split; [|exact Hl'].
    destruct k; cbn [logged]; [destruct (_pending_pong_logged c)
                              | destruct (_unknown_pong_logged c)];
      reflexivity.
Qed.

Lemma C2_mismatch_policy_witness :
  effects (_check_and_fire_pong_event PENDING_PONG 3 (of_seconds 2) three_pings)
    = Fire PENDING_PONG 3 ::
        (if _pending_pong_logged three_pings then [] else [Warn PENDING_PONG])
  ∧ effects (_check_and_fire_pong_event UNKNOWN_PONG 1 0
               (cache (handle_received_pong 0 0 threshold_zero)))
      = (if _unknown_pong_logged (cache (handle_received_pong 0 0 threshold_zero))
         then [] else [Warn UNKNOWN_PONG])
  ∧ effects (handle_send_ping (of_seconds 3) (of_seconds 3) three_pings)
      = Fire PENDING_PONG (len ({[of_seconds 3]} ∪ _pending_pongs three_pings)) ::
          (if _pending_pong_logged three_pings then [] else [Warn PENDING_PONG])
  ∧ warnings PENDING_PONG
      (snd (evaluate PENDING_PONG [(of_seconds 2, 3); (of_seconds 3, 3)]
              (set_pending_logged false three_pings)))
      = 1%nat.
Proof.
  split; [|split; [|split]].
  - apply (proj1 (C2_mismatch_policy three_pings (of_seconds 2) 3)).
    vm_compute. reflexivity.
  - apply (proj1 (proj2 (C2_mismatch_policy
                           (cache (handle_received_pong 0 0 threshold_zero)) 0 1))).
    vm_compute. reflexivity.
  - apply (proj1 (proj2 (proj2 (C2_mismatch_policy three_pings (of_seconds 3) 0)))).
    vm_compute. reflexivity.
  - apply (proj2 (proj2 (proj2 (C2_mismatch_policy
                                  (set_pending_logged false three_pings)
                                  (of_seconds 2) 3)))
             PENDING_PONG [(of_seconds 3, 3)]).
    + vm_compute. reflexivity.
    + split; [vm_compute; discriminate | exact I].
Defined.

(** ** Handlers when nothing has expired *)

Lemma run_app ks1 ks2 c :
  run (ks1 ++ ks2) c =
    (fst (run ks2 (fst (run ks1 c))),
     snd (run ks1 c) ++ snd (run ks2 (fst (run ks1 c)))).
Proof.
  revert c. induction ks1 as [|k ks1 IH]; intros c; cbn [run app].
  - cbn [fst snd app]. destruct (run ks2 c); reflexivity.
  - destruct (step k c) as [c1 e1]. rewrite IH.
    destruct (run ks1 c1) as [c2 e2]. cbn [fst snd].
    rewrite app_assoc. reflexivity.
Qed.

Lemma send_ping_fresh ts now c :
  (∀ x, x ∈ {[ts]} ∪ _pending_pongs c → expired (_ttl c) now x = false) →
  let n := len ({[ts]} ∪ _pending_pongs c) in
  let r := handle_send_ping ts now c in
  _pending_pongs (cache r) = {[ts]} ∪ _pending_pongs c
  ∧ _allowed_delta (cache r) = _allowed_delta c
  ∧ _ttl (cache r) = _ttl c
  ∧ (n ≤ _allowed_delta c →
       _pending_pong_logged c = false →
       _pending_pong_logged (cache r) = false
       ∧ warnings PENDING_PONG (effects r) = 0%nat)
  ∧ (_allowed_delta c < n →
       _pending_pong_logged (cache r) = true
       ∧ effects r = Fire PENDING_PONG n ::
           (if _pending_pong_logged c then [] else [Warn PENDING_PONG])).
Proof.
  intros Hfresh n r. subst r. rewrite handle_send_ping_run.
  unfold check_pending_result.
  cbn [set_pending _pending_pongs _ttl _allowed_delta _pending_pong_logged
       _unknown_pongs _unknown_pong_logged].
  rewrite (cleanup_fresh _ _ _ Hfresh). fold n.
  assert (0 ≤ n) by apply len_nonneg.
  repeat case_bool_decide; cbn; repeat split; intros; try lia; auto;
    try congruence.
Qed.

Lemma received_pong_known_fresh ts now c :
  ts ∈ _pending_pongs c →
  (∀ x, x ∈ _pending_pongs c → expired (_ttl c) now x = false) →
  let r := handle_received_pong ts now c in
  _pending_pongs (cache r) = _pending_pongs c ∖ {[ts]}
  ∧ _allowed_delta (cache r) = _allowed_delta c
  ∧ _ttl (cache r) = _ttl c
  ∧ (2 * len (_pending_pongs c ∖ {[ts]}) < _allowed_delta c →
       _pending_pong_logged (cache r) = false
       ∧ effects r = [Fire PENDING_PONG 0]).
Proof.
  intros Hin Hfresh r. subst r. rewrite handle_received_pong_known by exact Hin.
  unfold check_pending_result.
  cbn [set_pending _pending_pongs _ttl _allowed_delta _pending_pong_logged
       _unknown_pongs _unknown_pong_logged].
  rewrite (cleanup_fresh _ _ (_pending_pongs c ∖ {[ts]})).
  2:{ intros x Hx. apply Hfresh. apply elem_of_difference in Hx. tauto. }
  repeat case_bool_decide; cbn; repeat split; intros; try lia; auto.
Qed.

Lemma len_insert_new ts (s : gset datetime) :
  ts ∉ s → len ({[ts]} ∪ s) = len s + 1.
Proof.
  intros Hnew. unfold len. rewrite size_union by set_solver.
  rewrite size_singleton. lia.
Qed.

Lemma len_remove_old ts (s : gset datetime) :
  ts ∈ s → len (s ∖ {[ts]}) = len s - 1.
Proof.
  intros Hold. unfold len.
  assert (size s ≠ 0%nat) as Hpos.
  { intros H0. apply size_empty_inv in H0. set_solver. }
  rewrite size_difference by set_solver.
  rewrite size_singleton. lia.
Qed.

Lemma len_list_to_set (l : list datetime) :
  NoDup l → len (list_to_set l) = Z.of_nat (length l).
Proof. intros H. unfold len. rewrite size_list_to_set by exact H. reflexivity. Qed.

(** Pings that keep the count at or below the threshold: the set grows,
    the flag stays clear, nothing is logged. *)
Lemma run_pings_quiet (pings : list (datetime * datetime)) : ∀ c,
  _pending_pong_logged c = false →
  NoDup pings.*2 →
  (∀ ts, ts ∈ pings.*2 → ts ∉ _pending_pongs c) →
  fresh_sends (_ttl c) (_pending_pongs c) pings →
  len (_pending_pongs c) + Z.of_nat (length pings) ≤ _allowed_delta c →
  _pending_pongs (fst (run (send_all pings) c))
    = list_to_set pings.*2 ∪ _pending_pongs c
  ∧ _allowed_delta (fst (run (send_all pings) c)) = _allowed_delta c
  ∧ _ttl (fst (run (send_all pings) c)) = _ttl c
  ∧ _pending_pong_logged (fst (run (send_all pings) c)) = false
  ∧ warnings PENDING_PONG (snd (run (send_all pings) c)) = 0%nat.
Proof.
  induction pings as [|[now ts] pings IH]; intros c Hlog Hnd Hnew Hfresh Hlen.
  - cbn. repeat split; auto. set_solver.
  - cbn [send_all map fst snd run step fmap list_fmap length fresh_sends] in *.
    apply NoDup_cons in Hnd as [Hts Hnd].
    assert (ts ∉ _pending_pongs c) as Hts' by (apply Hnew; left).
    destruct Hfresh as [Hfresh0 Hfresh].
    destruct (send_ping_fresh ts now c) as (HP & HD & HT & Hquiet & _).
    { exact Hfresh0. }
    rewrite len_insert_new in Hquiet by exact Hts'.
    destruct Hquiet as [Hlog1 Hw1]; [lia | exact Hlog |].
    set (c1 := cache (handle_send_ping ts now c)) in *.
    destruct (IH c1) as (HP2 & HD2 & HT2 & Hlog2 & Hw2).
    + exact Hlog1.
    + exact Hnd.
    + intros x Hx. rewrite HP. rewrite elem_of_union, elem_of_singleton.
      intros [->|Hin]; [contradiction | apply (Hnew x); [right; exact Hx | exact Hin]].
    + rewrite HT, HP. exact Hfresh.
    + rewrite HP, HD, len_insert_new by exact Hts'. lia.
    + fold (send_all pings) in *.
      destruct (run (send_all pings) c1) as [c2 e2]. cbn [fst snd] in *.
      rewrite HP2, HD2, HT2, HP, HD, HT, warnings_app, Hw1, Hw2.
      repeat split; auto. set_solver.
Qed.

(** Acknowledgements down to less than half the threshold: the last one
    finds the count low. *)
Lemma run_acks_recover (acks : list (datetime * datetime)) : ∀ c,
  acks ≠ [] →
  NoDup acks.*2 →
  (∀ ts, ts ∈ acks.*2 → ts ∈ _pending_pongs c) →
  (∀ now x, now ∈ acks.*1 → x ∈ _pending_pongs c →
            expired (_ttl c) now x = false) →
  2 * (len (_pending_pongs c) - Z.of_nat (length acks)) < _allowed_delta c →
  _pending_pong_logged (fst (run (receive_all acks) c)) = false
  ∧ last (snd (run (receive_all acks) c)) = Some (Fire PENDING_PONG 0)
  ∧ _pending_pongs (fst (run (receive_all acks) c))
      = _pending_pongs c ∖ list_to_set acks.*2.
Proof.
  induction acks as [|[now ts] acks IH]; intros c Hne Hnd Hin Hfresh Hlen;
    [contradiction|].
  cbn [receive_all map fst snd run step fmap list_fmap length] in *.
  apply NoDup_cons in Hnd as [Hts Hnd].
  assert (ts ∈ _pending_pongs c) as Hts' by (apply Hin; left).
  destruct (received_pong_known_fresh ts now c Hts') as (HP & HD & HT & Hlow).
  { intros x Hx. apply Hfresh; [left | exact Hx]. }
  set (c1 := cache (handle_received_pong ts now c)) in *.
  fold (receive_all acks) in *.
  destruct acks as [|a acks'].
  - cbn [receive_all map run fst snd length] in *.
    rewrite len_remove_old in Hlow by exact Hts'.
    destruct Hlow as [Hl He]; [lia|].
    rewrite He, HP. cbn. repeat split; auto. set_solver.
  - destruct (IH c1) as (Hl2 & He2 & HP2).
    + discriminate.
    + exact Hnd.
    + intros x Hx. rewrite HP. apply elem_of_difference. split.
      * apply Hin. right. exact Hx.
      * rewrite elem_of_singleton. intros ->. contradiction.
    + intros now' x Hnow Hx. rewrite HT. apply Hfresh; [right; exact Hnow|].
      rewrite HP in Hx. apply elem_of_difference in Hx. tauto.
    + rewrite HP, HD, len_remove_old by exact Hts'.
      cbn [length] in *. lia.
    + destruct (run (receive_all (a :: acks')) c1) as [c2 e2].
      cbn [fst snd] in *.
      rewrite last_app, He2, HP2, HP. repeat split; auto. set_solver.
Qed.

Lemma send_all_app ps1 ps2 : send_all (ps1 ++ ps2) = send_all ps1 ++ send_all ps2.
Proof. apply List.map_app. Qed.

Lemma fresh_sends_app ttl (ps1 ps2 : list (datetime * datetime)) : ∀ held,
  fresh_sends ttl held (ps1 ++ ps2) →
  fresh_sends ttl held ps1
  ∧ fresh_sends ttl (list_to_set ps1.*2 ∪ held) ps2.
Proof.
  induction ps1 as [|p ps1 IH]; intros held H; cbn [app fresh_sends] in *.
  - split; [exact I|]. cbn.
    replace (∅ ∪ held) with held by set_solver. exact H.
  - destruct H as [H0 H]. destruct (IH _ H) as [H1 H2].
    repeat split; auto. cbn [fmap list_fmap].
    replace (list_to_set (p.2 :: ps1.*2) ∪ held)
      with (list_to_set ps1.*2 ∪ ({[p.2]} ∪ held)) by set_solver.
    exact H2.
Qed.

Lemma run_send_one now ts c :
  run (send_all [(now, ts)]) c =
    (cache (handle_send_ping ts now c), effects (handle_send_ping ts now c)).
Proof. cbn. rewrite app_nil_r. reflexivity. Qed.

(** ** C3: crossing the threshold and coming back *)

(** C3.  A fresh cache with threshold [D >= 0] is sent [D + 1] pings
    with distinct timestamps, none of them expired at any of the calls.
    Then [high_pending_pongs] is true (read at any time at which none
    has expired), the warning has been logged exactly once, and
    [pending_pong_logged] made one transition: it is false after every
    proper prefix of the pings and true after the last.  Acknowledging
    distinct pings of those, none expired at the calls, until fewer than
    [D / 2] remain, leaves the flag clear, and the last effect is the
    PENDING_PONG event with mismatch count 0. *)
Theorem C3_threshold_crossing (D ttl : Z) (pings : list (datetime * datetime)) :
  0 ≤ D →
  Z.of_nat (length pings) = D + 1 →
  NoDup pings.*2 →
  fresh_sends ttl ∅ pings →
  let sent := run (send_all pings) (init D ttl) in
  (∀ now, fresh_at ttl [now] pings.*2 →
          value (high_pending_pongs now (fst sent)) = true)
  ∧ warnings PENDING_PONG (snd sent) = 1%nat
  ∧ _pending_pong_logged (fst sent) = true
  ∧ (∀ front back, pings = front ++ back → back ≠ [] →
       _pending_pong_logged (fst (run (send_all front) (init D ttl))) = false)
  ∧ (∀ acks : list (datetime * datetime),
       NoDup acks.*2 →
       (∀ ts, ts ∈ acks.*2 → ts ∈ pings.*2) →
       fresh_at ttl acks.*1 pings.*2 →
       2 * (D + 1 - Z.of_nat (length acks)) < D →
       let acked := run (receive_all acks) (fst sent) in
       _pending_pong_logged (fst acked) = false
       ∧ last (snd acked) = Some (Fire PENDING_PONG 0)).
Proof.
  intros HD Hlen Hnd Hfresh sent.
  (* every proper prefix is quiet *)
  assert (∀ front back, pings = front ++ back → back ≠ [] →
            _pending_pongs (fst (run (send_all front) (init D ttl)))
              = list_to_set front.*2
            ∧ _allowed_delta (fst (run (send_all front) (init D ttl))) = D
            ∧ _ttl (fst (run (send_all front) (init D ttl))) = ttl
            ∧ _pending_pong_logged (fst (run (send_all front) (init D ttl))) = false
            ∧ warnings PENDING_PONG (snd (run (send_all front) (init D ttl))) = 0%nat)
    as Hprefix.
  { intros front back -> Hback.
    rewrite fmap_app in Hnd. apply NoDup_app in Hnd as (Hndf & _ & _).
    rewrite length_app in Hlen.
    assert (0 < length back)%nat by (destruct back; [contradiction | cbn; lia]).
    destruct (run_pings_quiet front (init D ttl)) as (HP & HD' & HT & Hl & Hw);
      cbn [init _pending_pongs _pending_pong_logged _ttl _allowed_delta];
      auto.
    - intros ts _. apply not_elem_of_empty.
    - exact (proj1 (fresh_sends_app _ _ _ _ Hfresh)).
    - unfold len. rewrite size_empty. lia.
    - rewrite HP, HD', HT, Hl, Hw.
      cbn [init _pending_pongs _pending_pong_logged _ttl _allowed_delta].
      repeat split; auto. set_solver. }
  (* the last ping crosses the threshold *)
  destruct pings as [|p0 pings0] using rev_ind; [cbn in Hlen; lia|].
  clear IHpings0. rename pings0 into front. destruct p0 as [now ts].
  destruct (Hprefix front [(now, ts)] eq_refl) as (HP & HDf & HTf & Hlf & Hwf);
    [discriminate|].
  subst sent. rewrite send_all_app, run_app.
  set (c1 := fst (run (send_all front) (init D ttl))) in *.
  rewrite run_send_one. cbn [fst snd].
  rewrite fmap_app in Hnd. cbn [fmap list_fmap snd] in Hnd.
  apply NoDup_app in Hnd as (Hndf & Hdisj & _).
  assert (ts ∉ front.*2) as Hts.
  { intros Hin. apply (Hdisj ts Hin). left. }
  rewrite length_app in Hlen. cbn [length] in Hlen.
  destruct (send_ping_fresh ts now c1) as (HP1 & HD1 & HT1 & _ & Hhigh).
  { intros x Hx. rewrite HTf.
    apply (proj1 (proj2 (fresh_sends_app _ _ _ _ Hfresh))). cbn [fst snd].
    rewrite HP in Hx. set_solver. }
  assert (len ({[ts]} ∪ _pending_pongs c1) = D + 1) as Hn.
  { rewrite HP, len_insert_new by (rewrite elem_of_list_to_set; exact Hts).
    rewrite len_list_to_set by exact Hndf. rewrite length_fmap. lia. }
  rewrite Hn, HDf, Hlf in Hhigh. destruct Hhigh as [Hl1 He1]; [lia|].
  set (c2 := cache (handle_send_ping ts now c1)) in *.
  assert (_pending_pongs c2 = list_to_set (front ++ [(now, ts)]).*2) as HP2.
  { rewrite HP1, HP, fmap_app. cbn. set_solver. }
  split; [|split; [|split; [|split]]].
  - intros now' Hfresh'. rewrite high_pending_pongs_run. cbn [value fst].
    apply bool_decide_eq_true_2. rewrite cleanup_fresh.
    + rewrite HD1, HDf, HP1, Hn. lia.
    + intros x Hx. rewrite HT1, HTf. apply Hfresh'; [left|].
      rewrite HP2, elem_of_list_to_set in Hx. exact Hx.
  - rewrite warnings_app, Hwf, He1. reflexivity.
  - exact Hl1.
  - intros front' back Heq Hback.
    exact (proj1 (proj2 (proj2 (proj2 (Hprefix front' back Heq Hback))))).
  - intros acks Hnda Hsub Hfresha Hfew.
    destruct (run_acks_recover acks c2) as (Hl & He & _); auto.
    + intros ->. cbn in Hfew. lia.
    + intros x Hx. rewrite HP2, elem_of_list_to_set. apply Hsub. exact Hx.
    + intros now' x Hnow Hx. rewrite HT1, HTf. apply Hfresha; [exact Hnow|].
      rewrite HP2, elem_of_list_to_set in Hx. exact Hx.
    + rewrite HP1, Hn, HD1, HDf. exact Hfew.
Qed.

Lemma C3_threshold_crossing_witness :
  warnings PENDING_PONG (snd (run (send_all three_fresh_pings) (init 2 300))) = 1%nat
  ∧ _pending_pong_logged (fst (run (send_all three_fresh_pings) (init 2 300))) = true.
Proof.
  assert (fresh_sends 300 ∅ three_fresh_pings) as Hfresh.
  { cbn [fresh_sends three_fresh_pings fst snd].
    repeat split; intros x Hx;
      repeat (apply elem_of_union in Hx as [Hx|Hx]);
      try (apply elem_of_singleton in Hx as ->; vm_compute; reflexivity);
      apply not_elem_of_empty in Hx; contradiction. }
  assert (NoDup three_fresh_pings.*2) as Hnd.
  { vm_compute.
    repeat (apply NoDup_cons_2;
            [rewrite ?elem_of_cons, elem_of_nil; intuition discriminate|]).
    apply NoDup_nil_2. }
  assert (0 ≤ 2) as HD by lia.
  assert (Z.of_nat (length three_fresh_pings) = 2 + 1) as Hlen by reflexivity.
  destruct (C3_threshold_crossing 2 300 three_fresh_pings HD Hlen Hnd Hfresh)
    as (_ & Hw & Hl & _).
  split; [exact Hw | exact Hl].
Defined.

(** ** C8: matching and unsolicited pongs *)

Lemma step_send_subseteq ts now c :
  _pending_pongs (cache (handle_send_ping ts now c)) ⊆ {[ts]} ∪ _pending_pongs c.
Proof.
  rewrite handle_send_ping_run. unfold check_pending_result.
  repeat case_bool_decide; cbn; apply cleanup_subseteq.
Qed.

Lemma step_pong_subseteq ts now c :
  _pending_pongs (cache (handle_received_pong ts now c)) ⊆ _pending_pongs c ∖ {[ts]}.
Proof.
  destruct (decide (ts ∈ _pending_pongs c)) as [Hin|Hout].
  - rewrite handle_received_pong_known by exact Hin. unfold check_pending_result.
    repeat case_bool_decide; cbn; apply cleanup_subseteq.
  - rewrite handle_received_pong_unknown by exact Hout. unfold check_unknown_result.
    assert (cleanup (_ttl c) now (_pending_pongs c) ⊆ _pending_pongs c ∖ {[ts]}).
    { intros x Hx. apply cleanup_subseteq in Hx. apply elem_of_difference.
      split; [exact Hx|]. rewrite elem_of_singleton. intros ->. contradiction. }
    repeat case_bool_decide; cbn; assumption.
Qed.

Lemma run_send_subseteq (pings : list (datetime * datetime)) : ∀ c,
  _pending_pongs (fst (run (send_all pings) c))
    ⊆ list_to_set pings.*2 ∪ _pending_pongs c.
Proof.
  induction pings as [|[now ts] pings IH]; intros c.
  - cbn. apply union_subseteq_r.
  - cbn [send_all map fst snd run step fmap list_fmap].
    fold (send_all pings).
    pose proof (IH (cache (handle_send_ping ts now c))) as H1.
    pose proof (step_send_subseteq ts now c) as H2.
    destruct (run (send_all pings) _) as [c2 e2]. cbn [fst] in *.
    intros x Hx. apply H1 in Hx.
    rewrite list_to_set_cons.
    apply elem_of_union in Hx as [Hx|Hx].
    + apply elem_of_union. left. apply elem_of_union. right. exact Hx.
    + apply H2 in Hx. apply elem_of_union in Hx as [Hx|Hx].
      * apply elem_of_union. left. apply elem_of_union. left. exact Hx.
      * apply elem_of_union. right. exact Hx.
Qed.

Lemma run_pong_subseteq (pongs : list (datetime * datetime)) : ∀ c,
  _pending_pongs (fst (run (receive_all pongs) c))
    ⊆ _pending_pongs c ∖ list_to_set pongs.*2.
Proof.
  induction pongs as [|[now ts] pongs IH]; intros c.
  - cbn. intros x Hx. apply elem_of_difference. split; [exact Hx|].
    apply not_elem_of_empty.
  - cbn [receive_all map fst snd run step fmap list_fmap].
    fold (receive_all pongs).
    pose proof (IH (cache (handle_received_pong ts now c))) as H1.
    pose proof (step_pong_subseteq ts now c) as H2.
    destruct (run (receive_all pongs) _) as [c2 e2]. cbn [fst] in *.
    intros x Hx. apply H1 in Hx.
    apply elem_of_difference in Hx as [Hx Hnot]. apply H2 in Hx.
    apply elem_of_difference in Hx as [Hx Hne].
    apply elem_of_difference. split; [exact Hx|].
    rewrite list_to_set_cons, elem_of_union. tauto.
Qed.

(** C8, as stated, fails in its second half.  A pong whose timestamp is
    already in the unknown set leaves [unknown_pong_count] at 1; a pong
    arriving after the earlier unknown entry has expired leaves it at 1
    as well; and a pong that matches no pending ping still sweeps the
    pending set, here emptying it. *)
Lemma C8_counterexample :
  (let r := handle_received_pong (of_seconds 5) (of_seconds 5) one_unknown_pong in
   (of_seconds 5 ∉ _pending_pongs one_unknown_pong)
   ∧ value (unknown_pong_count (of_seconds 5) one_unknown_pong) = 1
   ∧ value (unknown_pong_count (of_seconds 5) (cache r)) = 1)
  ∧ (let r := handle_received_pong (of_seconds 400) (of_seconds 400) one_unknown_pong in
     (of_seconds 400 ∉ _pending_pongs one_unknown_pong)
     ∧ value (unknown_pong_count (of_seconds 400) (cache r)) = 1)
  ∧ (let r := handle_received_pong (of_seconds 400) (of_seconds 400) one_ping in
     (of_seconds 400 ∉ _pending_pongs one_ping)
     ∧ _pending_pongs one_ping = {[0]}
     ∧ _pending_pongs (cache r) = ∅).
Proof.
  repeat split; try (vm_compute; reflexivity);
    refine (bool_decide_unpack _ _); vm_compute; exact I.
Qed.

(** C8 (amended).  From a cache with no pending entry, sending pings and
    then receiving pongs that cover every sent timestamp leaves
    [pending_pong_count] at 0 (at whatever times the calls are made).
    A [handle_received_pong] whose timestamp is in neither the pending
    nor the unknown set, made when no entry of either set (the new one
    included) is expired, raises [unknown_pong_count] by exactly 1 and
    leaves the pending set as it was. *)
Theorem C8_matching_and_unknown_pongs (c : PingPongCache) :
  (∀ (pings pongs : list (datetime * datetime)) (now : datetime),
     _pending_pongs c = ∅ →
     (∀ ts, ts ∈ pings.*2 → ts ∈ pongs.*2) →
     value (pending_pong_count now
              (fst (run (send_all pings ++ receive_all pongs) c))) = 0)
  ∧ (∀ (now pong_ts : datetime),
       pong_ts ∉ _pending_pongs c →
       pong_ts ∉ _unknown_pongs c →
       (∀ x, x ∈ _pending_pongs c → expired (_ttl c) now x = false) →
       (∀ x, x ∈ {[pong_ts]} ∪ _unknown_pongs c → expired (_ttl c) now x = false) →
       value (unknown_pong_count now (cache (handle_received_pong pong_ts now c)))
         = value (unknown_pong_count now c) + 1
       ∧ _pending_pongs (cache (handle_received_pong pong_ts now c))
           = _pending_pongs c).
Proof.
  split.
  - intros pings pongs now Hempty Hcover.
    rewrite run_app. cbn [fst].
    change (len (_pending_pongs
              (fst (run (receive_all pongs) (fst (run (send_all pings) c))))) = 0).
    pose proof (run_send_subseteq pings c) as H1.
    pose proof (run_pong_subseteq pongs (fst (run (send_all pings) c))) as H2.
    assert (_pending_pongs (fst (run (receive_all pongs) (fst (run (send_all pings) c))))
              = ∅) as ->.
    { apply set_eq. intros x. split; [|intros Hx; apply not_elem_of_empty in Hx; contradiction].
      intros Hx. apply H2 in Hx. apply elem_of_difference in Hx as [Hx Hnot].
      apply H1 in Hx. rewrite Hempty in Hx.
      apply elem_of_union in Hx as [Hx|Hx].
      - exfalso. apply Hnot. rewrite elem_of_list_to_set.
        apply Hcover. rewrite elem_of_list_to_set in Hx. exact Hx.
      - exact Hx. }
    unfold len. rewrite size_empty. reflexivity.
  - intros now ts Hp Hu Hfp Hfu.
    rewrite handle_received_pong_unknown by exact Hp.
    unfold check_unknown_result.
    cbn [set_unknown _pending_pongs _ttl _allowed_delta _pending_pong_logged
         _unknown_pongs _unknown_pong_logged].
    rewrite (cleanup_fresh _ _ _ Hfp), (cleanup_fresh _ _ _ Hfu).
    unfold unknown_pong_count, value, mbind, M_bind, bind, self, mret, M_ret, ret.
    repeat case_bool_decide;
      cbn [cache fst snd _unknown_pongs _pending_pongs];
      rewrite len_insert_new by exact Hu; auto.
Qed.

Lemma C8_matching_and_unknown_pongs_witness :
  value (pending_pong_count 0
           (fst (run (send_all three_fresh_pings ++ receive_all three_fresh_pings)
                     (init 10 300)))) = 0
  ∧ value (unknown_pong_count (of_seconds 1)
             (cache (handle_received_pong (of_seconds 1) (of_seconds 1) one_ping)))
      = value (unknown_pong_count (of_seconds 1) one_ping) + 1.
Proof.
  split.
  - apply (proj1 (C8_matching_and_unknown_pongs (init 10 300))).
    + reflexivity.
    + intros ts Hts. exact Hts.
  - apply (proj2 (C8_matching_and_unknown_pongs one_ping)).
    + refine (bool_decide_unpack _ _); vm_compute; exact I.
    + refine (bool_decide_unpack _ _); vm_compute; exact I.
    + intros x Hx. rewrite one_ping_pending in Hx.
      apply elem_of_singleton in Hx as ->. vm_compute. reflexivity.
    + intros x Hx. apply elem_of_union in Hx as [Hx|Hx].
      * apply elem_of_singleton in Hx as ->. vm_compute. reflexivity.
      * assert (_unknown_pongs one_ping = ∅) as Hu by (vm_compute; reflexivity).
        rewrite Hu in Hx. apply not_elem_of_empty in Hx. contradiction.
Defined.

End PingPongFacts.

(* ===================================================================== *)
(** * Properties of the timer and colour helpers                          *)
(* ===================================================================== *)

Section LightHelperFacts.
Import Light.
#[local] Open Scope Q_scope.

Lemma float_eq_true x y : float_eq x y = true ↔ x == y.
Proof. apply Qeq_bool_iff. Qed.

Lemma float_eq_false x y : float_eq x y = false ↔ ¬ x == y.
Proof.
  unfold float_eq. split.
  - apply Qeq_bool_neq.
  - intros H. destruct (Qeq_bool x y) eqn:E; [|reflexivity].
    apply Qeq_bool_iff in E. contradiction.
Qed.

Lemma gt_true x y : gt x y = true ↔ y < x.
Proof.
  unfold gt. destruct (Qle_bool x y) eqn:E; cbn.
  - apply Qle_bool_iff in E. split; [discriminate|].
    intros H. exfalso. exact (Qlt_not_le _ _ H E).
  - split; [|reflexivity]. intros _. apply Qnot_le_lt.
    intros H. apply Qle_bool_iff in H. congruence.
Qed.

Lemma gt_false x y : gt x y = false ↔ x <= y.
Proof.
  unfold gt. destruct (Qle_bool x y) eqn:E; cbn.
  - apply Qle_bool_iff in E. tauto.
  - split; [discriminate|]. intros H. apply Qle_bool_iff in H. congruence.
Qed.

(** C6.  [_recalc_unit_timer] returns 111600 as it is with no unit,
    and [_set_on_time_value] then writes no unit; any other time up to
    16343 comes back unchanged in SECONDS; above 16343 it is divided by
    60 and comes back in MINUTES, unless the quotient is still above
    16343, in which case it is divided by 60 again and comes back in
    HOURS.  16344 gives 272.4 MINUTES and 0 gives 0 SECONDS. *)
Theorem C6_recalc_unit_timer (time : Q) :
  (time == 111600 →
     _recalc_unit_timer time = (time, None)
     ∧ List.filter is_unit_write (CeIpRGBWLight._set_on_time_value time) = [])
  ∧ (¬ time == 111600 → time <= 16343 →
       _recalc_unit_timer time = (time, Some SECONDS))
  ∧ (¬ time == 111600 → 16343 < time → time / 60 <= 16343 →
       _recalc_unit_timer time = (time / 60, Some MINUTES))
  ∧ (¬ time == 111600 → 16343 < time → 16343 < time / 60 →
       _recalc_unit_timer time = (time / 60 / 60, Some HOURS))
  ∧ (fst (_recalc_unit_timer 16344) == 272.4
     ∧ snd (_recalc_unit_timer 16344) = Some MINUTES)
  ∧ _recalc_unit_timer 0 = (0, Some SECONDS)
  ∧ _recalc_unit_timer 111600 = (111600, None).
Proof.
  split; [|split; [|split; [|split; [|split; [|split]]]]].
  - intros Heq. unfold CeIpRGBWLight._set_on_time_value, _recalc_unit_timer.
    rewrite (proj2 (float_eq_true _ _) Heq). split; reflexivity.
  - intros Hne Hle. unfold _recalc_unit_timer.
    rewrite (proj2 (float_eq_false _ _) Hne), (proj2 (gt_false _ _) Hle).
    rewrite (proj2 (gt_false _ _) Hle). reflexivity.
  - intros Hne Hgt Hle. unfold _recalc_unit_timer.
    rewrite (proj2 (float_eq_false _ _) Hne), (proj2 (gt_true _ _) Hgt).
    rewrite (proj2 (gt_false _ _) Hle). reflexivity.
  - intros Hne Hgt Hgt'. unfold _recalc_unit_timer.
    rewrite (proj2 (float_eq_false _ _) Hne), (proj2 (gt_true _ _) Hgt).
    rewrite (proj2 (gt_true _ _) Hgt'). reflexivity.
  - split; reflexivity.
  - reflexivity.
  - reflexivity.
Qed.

Lemma C6_recalc_unit_timer_witness :
  _recalc_unit_timer 111600 = (111600, None)
  ∧ _recalc_unit_timer 5 = (5, Some SECONDS)
  ∧ _recalc_unit_timer 16344 = (16344 / 60, Some MINUTES)
  ∧ _recalc_unit_timer 3600000 = (3600000 / 60 / 60, Some HOURS).
Proof.
  split; [|split; [|split]].
  - apply (proj1 (C6_recalc_unit_timer 111600)). reflexivity.
  - apply (proj1 (proj2 (C6_recalc_unit_timer 5))).
    + intros H. vm_compute in H. discriminate.
    + vm_compute. discriminate.
  - apply (proj1 (proj2 (proj2 (C6_recalc_unit_timer 16344)))).
    + intros H. vm_compute in H. discriminate.
    + vm_compute. reflexivity.
    + vm_compute. discriminate.
  - apply (proj1 (proj2 (proj2 (proj2 (C6_recalc_unit_timer 3600000))))).
    + intros H. vm_compute in H. discriminate.
    + vm_compute. reflexivity.
    + vm_compute. reflexivity.
Defined.

#[local] Close Scope Q_scope.

(** C7.  [_convert_color]: a saturation whose integer part is below 5
    gives WHITE whatever the hue; otherwise the integer hue [h] gives
    YELLOW for 30 < h <= 90, GREEN for 90 < h <= 150, TURQUOISE for
    150 < h <= 210, BLUE for 210 < h <= 270, PURPLE for 270 < h <= 330
    and RED for every other [h].  Hue 91 gives GREEN, hue 29 gives RED,
    and saturation 4 gives WHITE at any hue. *)
Theorem C7_convert_color (hue saturation : Q) :
  (int saturation < 5 → _convert_color (hue, saturation) = WHITE)
  ∧ (5 ≤ int saturation →
       (30 < int hue ≤ 90 → _convert_color (hue, saturation) = YELLOW)
       ∧ (90 < int hue ≤ 150 → _convert_color (hue, saturation) = GREEN)
       ∧ (150 < int hue ≤ 210 → _convert_color (hue, saturation) = TURQUOISE)
       ∧ (210 < int hue ≤ 270 → _convert_color (hue, saturation) = BLUE)
       ∧ (270 < int hue ≤ 330 → _convert_color (hue, saturation) = PURPLE)
       ∧ (int hue ≤ 30 ∨ 330 < int hue → _convert_color (hue, saturation) = RED))
  ∧ _convert_color (91%Q, 100%Q) = GREEN
  ∧ _convert_color (29%Q, 100%Q) = RED
  ∧ _convert_color (hue, 4%Q) = WHITE.
Proof.
  unfold _convert_color. cbn [fst snd].
  split; [|split; [|repeat split]].
  - intros H. apply Z.ltb_lt in H. rewrite H. reflexivity.
  - intros Hs. apply Z.ltb_ge in Hs. rewrite Hs.
    repeat split; intros H;
      repeat match goal with
             | |- context [?a <? ?b] => destruct (Z.ltb_spec a b); try lia
             | |- context [?a <=? ?b] => destruct (Z.leb_spec a b); try lia
             end; cbn; try reflexivity; lia.
Qed.

Lemma C7_convert_color_witness :
  _convert_color (200%Q, 3%Q) = WHITE
  ∧ _convert_color (60%Q, 50%Q) = YELLOW
  ∧ _convert_color (350%Q, 50%Q) = RED.
Proof.
  split; [|split].
  - apply (proj1 (C7_convert_color 200%Q 3%Q)). vm_compute. reflexivity.
  - apply (proj1 (proj1 (proj2 (C7_convert_color 60%Q 50%Q))
                    ltac:(vm_compute; discriminate))).
    vm_compute. split; [reflexivity | discriminate].
  - apply (proj2 (proj2 (proj2 (proj2 (proj2
            (proj1 (proj2 (C7_convert_color 350%Q 50%Q))
               ltac:(vm_compute; discriminate))))))).
    right. vm_compute. reflexivity.
Defined.

End LightHelperFacts.

(* ===================================================================== *)
(** * Properties of DeviceDetailsCache and CentralDataCache               *)
(* ===================================================================== *)

Section DeviceDetailsFacts.
Import DateTime Support DeviceDetails.

Variable INIT_DATETIME : datetime.
Variable MAX_CACHE_AGE : Z.
Variable BIDCOS_RF : string.

Lemma del_if_present_delete address (names : gmap string string) :
  del_if_present address names = delete address names.
Proof.
  unfold del_if_present. case_bool_decide as H; [reflexivity|].
  symmetry. apply delete_id. destruct (names !! address) eqn:E; [|reflexivity].
  exfalso. apply H. eauto.
Qed.

Lemma lookup_remove_channels (l : list string) : ∀ (names : gmap string string) a,
  foldl (fun names ch => del_if_present ch names) names l !! a
    = if bool_decide (a ∈ l) then None else names !! a.
Proof.
  induction l as [|ch l IH]; intros names a; cbn [foldl].
  - rewrite bool_decide_eq_false_2; [reflexivity | apply not_elem_of_nil].
  - rewrite IH, del_if_present_delete.
    destruct (decide (a ∈ l)) as [Hin|Hout].
    + rewrite !bool_decide_eq_true_2; [reflexivity | right; exact Hin | exact Hin].
    + rewrite (bool_decide_eq_false_2 _ Hout).
      destruct (decide (a = ch)) as [->|Hne].
      * rewrite lookup_delete_eq, bool_decide_eq_true_2; [reflexivity | left].
      * rewrite lookup_delete_ne by congruence.
        rewrite bool_decide_eq_false_2; [reflexivity|].
        rewrite elem_of_cons. tauto.
Qed.

(** C9.  After [remove_device], [get_name] is None for the device
    address and for each of the device's channel addresses;
    [get_interface] returns for every address what it returned before;
    the rooms, functions, interface and channel-id maps are the same
    maps; the names of all other addresses are kept. *)
Theorem C9_remove_device (c : DeviceDetailsCache) (device : HmDevice) :
  get_name (remove_device device c) (device_address device) = None
  ∧ Forall (fun channel_address =>
              get_name (remove_device device c) channel_address = None)
           (channels device)
  ∧ (∀ address,
       get_interface BIDCOS_RF (remove_device device c) address
         = get_interface BIDCOS_RF c address)
  ∧ _channel_rooms (remove_device device c) = _channel_rooms c
  ∧ _functions (remove_device device c) = _functions c
  ∧ _interface_cache (remove_device device c) = _interface_cache c
  ∧ _device_channel_ids (remove_device device c) = _device_channel_ids c
  ∧ (∀ address,
       address ≠ device_address device →
       address ∉ channels device →
       get_name (remove_device device c) address = get_name c address).
Proof.
  unfold get_name, get_interface, remove_device.
  cbn [_names_cache _interface_cache _channel_rooms _functions
       _device_channel_ids].
  repeat split.
  - rewrite lookup_remove_channels, del_if_present_delete, lookup_delete_eq.
    case_bool_decide; reflexivity.
  - apply Forall_forall. intros ch Hch.
    rewrite lookup_remove_channels, bool_decide_eq_true_2; [reflexivity | exact Hch].
  - intros a Hne Hout.
    rewrite lookup_remove_channels, bool_decide_eq_false_2 by exact Hout.
    rewrite del_if_present_delete, lookup_delete_ne by congruence.
    reflexivity.
Qed.

(** The time gate of [load], in terms of the age of the cache. *)
Lemma half_max_age (now last_refreshed : datetime) :
  changed_within_seconds now last_refreshed (of_seconds MAX_CACHE_AGE / 2) = true
  ↔ 2 * sub now last_refreshed ≤ of_seconds MAX_CACHE_AGE.
Proof.
  unfold changed_within_seconds, is_stale, of_seconds, us_per_second.
  replace (MAX_CACHE_AGE * 1000000) with (MAX_CACHE_AGE * 500000 * 2) by lia.
  rewrite Z.div_mul by lia.
  case_bool_decide; cbn; split; intros; try discriminate; try reflexivity; lia.
Qed.

Lemma details_load_skips (c : DeviceDetailsCache) (now : datetime)
    (primary_client : option Client) :
  2 * sub now (_last_refreshed c) ≤ of_seconds MAX_CACHE_AGE →
  load INIT_DATETIME MAX_CACHE_AGE now primary_client c = (c, []).
Proof.
  intros H. unfold load. rewrite (proj2 (half_max_age _ _) H). reflexivity.
Qed.

Lemma details_load_stamps (c : DeviceDetailsCache) (T : datetime)
    (primary_client : option Client) :
  ¬ (2 * sub T (_last_refreshed c) ≤ of_seconds MAX_CACHE_AGE) →
  _last_refreshed (fst (load INIT_DATETIME MAX_CACHE_AGE T primary_client c)) = T.
Proof.
  intros H. unfold load.
  destruct (changed_within_seconds _ _ _) eqn:E.
  - apply half_max_age in E. contradiction.
  - destruct primary_client; reflexivity.
Qed.

End DeviceDetailsFacts.

Section CentralDataFacts.
Import DateTime Support CentralData.

Context {V : Type}.
Variable NO_CACHE_ENTRY : V.
Variable INIT_DATETIME : datetime.
Variable MAX_CACHE_AGE : Z.

Abbreviation is_empty := (is_empty INIT_DATETIME MAX_CACHE_AGE).
Abbreviation get_data := (get_data NO_CACHE_ENTRY INIT_DATETIME MAX_CACHE_AGE).
Abbreviation load := (load INIT_DATETIME MAX_CACHE_AGE).
Abbreviation clear := (clear INIT_DATETIME).

Lemma stale_not_changed (now last_refreshed : datetime) :
  of_seconds MAX_CACHE_AGE < sub now last_refreshed →
  changed_within_seconds now last_refreshed (of_seconds MAX_CACHE_AGE) = false.
Proof.
  intros H. unfold changed_within_seconds, is_stale.
  rewrite bool_decide_eq_true_2 by exact H. reflexivity.
Qed.

Lemma is_empty_stale (c : CentralDataCache (V:=V)) (now : datetime) :
  of_seconds MAX_CACHE_AGE < sub now (_last_refreshed c) →
  fst (is_empty now c) = true
  ∧ _value_cache (snd (is_empty now c)) = ∅
  ∧ (_value_cache c ≠ ∅ → snd (is_empty now c) = clear c).
Proof.
  intros H. unfold is_empty. case_bool_decide as Hsize; cbn [fst snd].
  - apply map_size_empty_inv in Hsize. repeat split; [exact Hsize | congruence].
  - rewrite (stale_not_changed _ _ H). cbn. repeat split.
Qed.

Lemma load_stamps_or_idle (clients : list (Client (V:=V))) (T : datetime) :
  ∀ c : CentralDataCache (V:=V),
  _last_refreshed
    (foldl (fun c client => fetch_all_device_data T client c) c clients) = T
  ∨ Forall (fun client => client = None) clients.
Proof.
  induction clients as [|client clients IH]; intros c; cbn [foldl].
  - right. constructor.
  - destruct client as [data|]; cbn [fetch_all_device_data].
    + destruct (IH (add_data T data c)) as [H|H]; [left; exact H|].
      left.
      assert (∀ c' : CentralDataCache (V:=V),
                Forall (fun client => client = None) clients →
                foldl (fun c client => fetch_all_device_data T client c) c' clients
                  = c') as Hidle.
      { clear. induction clients as [|k clients IH']; intros c' H; [reflexivity|].
        apply Forall_cons in H as [-> H]. cbn. apply IH'. exact H. }
      rewrite (Hidle _ H). reflexivity.
    + destruct (IH c) as [H|H]; [left; exact H | right].
      constructor; [reflexivity | exact H].
Qed.

Lemma load_stamps (clients : list (Client (V:=V))) (T : datetime)
    (c : CentralDataCache (V:=V)) :
  Exists (fun client => is_Some client) clients →
  _last_refreshed
    (foldl (fun c client => fetch_all_device_data T client c) c clients) = T.
Proof.
  intros Hex. destruct (load_stamps_or_idle clients T c) as [H|H]; [exact H|].
  exfalso. apply Exists_exists in Hex as (k & Hin & [d ->]).
  rewrite Forall_forall in H. specialize (H _ Hin). discriminate.
Qed.

(** C4.  A [CentralDataCache] whose [last_refreshed] is more than
    [MAX_CACHE_AGE] seconds old reports empty: [is_empty] is true and
    leaves no value in the cache (the cleared cache, when there was
    one), and [get_data] returns [NO_CACHE_ENTRY].  A [load] made at
    most [MAX_CACHE_AGE / 2] seconds after [last_refreshed] calls no
    backend and returns the cache as it is, for [CentralDataCache] and
    for [DeviceDetailsCache]; [last_refreshed] is the time of the last
    load that fetched (for [CentralDataCache]: that was delivered data
    by a client). *)
Theorem C4_stale_reports_empty_and_fresh_skips_load :
  (∀ (c : CentralDataCache (V:=V)) (now : datetime),
     of_seconds MAX_CACHE_AGE < sub now (_last_refreshed c) →
     fst (is_empty now c) = true
     ∧ _value_cache (snd (is_empty now c)) = ∅
     ∧ (_value_cache c ≠ ∅ → snd (is_empty now c) = clear c)
     ∧ ∀ interface channel_address parameter,
         fst (get_data now c interface channel_address parameter)
           = NO_CACHE_ENTRY)
  ∧ (∀ (c : CentralDataCache (V:=V)) (now : datetime) clients,
       2 * sub now (_last_refreshed c) ≤ of_seconds MAX_CACHE_AGE →
       load now clients c = (c, 0%nat))
  ∧ (∀ (c : CentralDataCache (V:=V)) (T now : datetime) clients clients',
       ¬ (2 * sub T (_last_refreshed c) ≤ of_seconds MAX_CACHE_AGE) →
       Exists (fun client => is_Some client) clients →
       2 * sub now T ≤ of_seconds MAX_CACHE_AGE →
       load now clients' (fst (load T clients c))
         = (fst (load T clients c), 0%nat))
  ∧ (∀ (c : DeviceDetails.DeviceDetailsCache) (now : datetime) primary_client,
       2 * sub now (DeviceDetails._last_refreshed c) ≤ of_seconds MAX_CACHE_AGE →
       DeviceDetails.load INIT_DATETIME MAX_CACHE_AGE now primary_client c
         = (c, []))
  ∧ (∀ (c : DeviceDetails.DeviceDetailsCache) (T now : datetime)
       primary_client primary_client',
       ¬ (2 * sub T (DeviceDetails._last_refreshed c) ≤ of_seconds MAX_CACHE_AGE) →
       2 * sub now T ≤ of_seconds MAX_CACHE_AGE →
       let loaded :=
         fst (DeviceDetails.load INIT_DATETIME MAX_CACHE_AGE T primary_client c) in
       DeviceDetails.load INIT_DATETIME MAX_CACHE_AGE now primary_client' loaded
         = (loaded, [])).
Proof.
  split; [|split; [|split; [|split]]].
  - intros c now H. destruct (is_empty_stale c now H) as (H1 & H2 & H3).
    repeat split; auto.
    intros i ch p. unfold CentralData.get_data.
    destruct (is_empty now c) as [b c']. cbn [fst] in H1. subst b. reflexivity.
  - intros c now clients H. unfold CentralData.load.
    rewrite (proj2 (half_max_age MAX_CACHE_AGE _ _) H). reflexivity.
  - intros c T now clients clients' Hold Hex Hnew.
    assert (_last_refreshed (fst (load T clients c)) = T) as Hstamp.
    { unfold CentralData.load.
      destruct (changed_within_seconds _ _ _) eqn:E.
      - apply half_max_age in E. contradiction.
      - cbn [fst]. apply load_stamps. exact Hex. }
    unfold CentralData.load at 1. rewrite Hstamp.
    rewrite (proj2 (half_max_age MAX_CACHE_AGE _ _) Hnew). reflexivity.
  - intros c now pc H. apply details_load_skips. exact H.
  - intros c T now pc pc' Hold Hnew loaded. apply details_load_skips.
    subst loaded. rewrite details_load_stamps by exact Hold. exact Hnew.
Qed.

End CentralDataFacts.

Lemma C9_remove_device_witness :
  DeviceDetails.get_name
    (DeviceDetails.remove_device DeviceDetails.sample_device
       DeviceDetails.sample_cache) "VCU0000002"
  = DeviceDetails.get_name DeviceDetails.sample_cache "VCU0000002".
Proof.
  destruct (C9_remove_device "BidCos-RF" DeviceDetails.sample_cache
              DeviceDetails.sample_device) as (_ & _ & _ & _ & _ & _ & _ & Hother).
  apply Hother.
  - discriminate.
  - cbn. rewrite !elem_of_cons, elem_of_nil. intuition discriminate.
Defined.

Lemma C4_stale_reports_empty_and_fresh_skips_load_witness :
  fst (CentralData.is_empty 0 60 (DateTime.of_seconds 61) CentralData.sample_cache)
    = true
  ∧ CentralData.load 0 60 (DateTime.of_seconds 30) [] CentralData.sample_cache
      = (CentralData.sample_cache, 0%nat)
  ∧ (let loaded :=
       fst (CentralData.load 0 60 (DateTime.of_seconds 100) [Some ∅]
              CentralData.sample_cache) in
     CentralData.load 0 60 (DateTime.of_seconds 120) [Some ∅] loaded
       = (loaded, 0%nat))
  ∧ (let loaded :=
       fst (DeviceDetails.load 0 60 (DateTime.of_seconds 100) None
              DeviceDetails.sample_cache) in
     DeviceDetails.load 0 60 (DateTime.of_seconds 120) None loaded = (loaded, [])).
Proof.
  destruct (C4_stale_reports_empty_and_fresh_skips_load (V:=Z) (-1) 0 60)
    as (Hstale & Hfresh & Hprior & _ & Hdetails).
  split; [|split; [|split]].
  - apply Hstale. vm_compute. reflexivity.
  - apply Hfresh. vm_compute. discriminate.
  - apply Hprior.
    + vm_compute. intros H. apply H. reflexivity.
    + left. eauto.
    + vm_compute. discriminate.
  - apply Hdetails.
    + vm_compute. intros H. apply H. reflexivity.
    + vm_compute. discriminate.
Defined.

(* ===================================================================== *)
(** * Properties of the dimmer                                            *)
(* ===================================================================== *)

Section DimmerFacts.
Import Light Light.CeDimmer.

(** C5.  For a dimmer whose current brightness is [X], the call
    [turn_on(brightness=X)] with no other argument writes nothing:
    [is_state_change(on=True, brightness=X)] is false and [turn_on]
    returns with the entity untouched and no [send_value]. *)
Theorem C5_turn_on_same_brightness (e : CeDimmer) (X : Z) :
  brightness e = X →
  X ≠ 0 →
  is_state_change e (mkStateChangeArgs (Some true) None (only_brightness X)) = false
  ∧ turn_on e (only_brightness X) = (e, []).
Proof.
  intros HX _.
  assert (is_state_change e
            (mkStateChangeArgs (Some true) None (only_brightness X)) = false) as H.
  { unfold is_state_change, only_brightness, len, differs.
    cbn [on off args Light.brightness Light.hs_color Light.color_temp
         Light.effect ramp_time on_time present Nat.add Nat.eqb].
    rewrite andb_false_r. cbn [andb].
    rewrite HX, Z.eqb_refl. cbn [negb].
    rewrite !bool_decide_eq_false_2 by (intros [? ?]; discriminate).
    rewrite andb_false_l. reflexivity. }
  split; [exact H|]. unfold turn_on. rewrite H. reflexivity.
Qed.

Lemma C5_turn_on_same_brightness_witness :
  is_state_change half_lit
    (mkStateChangeArgs (Some true) None (only_brightness 127)) = false
  ∧ turn_on half_lit (only_brightness 127) = (half_lit, []).
Proof.
  apply (C5_turn_on_same_brightness half_lit 127).
  - vm_compute. reflexivity.
  - discriminate.
Defined.

(** The level written for a brightness. *)
Lemma level_of_nonzero (b : Z) :
  b ≠ 0 → ¬ (inject_Z b / _MAX_BRIGHTNESS == 0)%Q.
Proof.
  intros Hb H. unfold Qeq, Qdiv, Qmult, Qinv, inject_Z, _MAX_BRIGHTNESS in H.
  cbn in H. lia.
Qed.

Lemma on_time_writes_spec (e : CeDimmer) (kwargs : LightOnArgs) :
  brightness (fst (on_time_writes e kwargs)) = brightness e
  ∧ Forall (fun w => is_level_write w = false) (snd (on_time_writes e kwargs)).
Proof.
  unfold on_time_writes, get_on_time_and_cleanup.
  destruct (if_truthy (on_time kwargs)); [|destruct (if_truthy (_on_time e))];
    cbn; split; try reflexivity; repeat constructor.
Qed.

Lemma ramp_time_writes_spec (kwargs : LightOnArgs) :
  Forall (fun w => is_level_write w = false) (ramp_time_writes kwargs).
Proof.
  unfold ramp_time_writes. destruct (if_truthy (ramp_time kwargs));
    repeat constructor.
Qed.

Lemma turn_on_writes (e : CeDimmer) (kwargs : LightOnArgs) :
  is_state_change e (mkStateChangeArgs (Some true) None kwargs) = true →
  ∃ ws,
    snd (turn_on e kwargs) =
      ws ++ [(LEVEL, VFloat (inject_Z (effective_brightness e kwargs)
                             / _MAX_BRIGHTNESS)%Q)]
    ∧ Forall (fun w => is_level_write w = false) ws.
Proof.
  intros H. unfold turn_on, effective_brightness. rewrite H. cbn [negb].
  destruct (on_time_writes_spec e kwargs) as [Hb Hon].
  destruct (on_time_writes e kwargs) as [e' w_on]. cbn [fst snd] in *.
  rewrite Hb. exists (ramp_time_writes kwargs ++ w_on). split.
  - rewrite <- app_assoc. reflexivity.
  - apply Forall_app. split; [apply ramp_time_writes_spec | exact Hon].
Qed.

(** C10.  A [turn_on] that passes the state-change guard and whose
    requested brightness is 0 (passed as [brightness=0], or not passed
    while the current brightness is 0, which is the case when the level
    is unset) ends with the write of level 255/255 = 1 to LEVEL; and no
    [turn_on] whatsoever writes a level equal to 0 to LEVEL. *)
Theorem C10_turn_on_never_writes_level_zero (e : CeDimmer) (kwargs : LightOnArgs) :
  (is_state_change e (mkStateChangeArgs (Some true) None kwargs) = true →
   Light.brightness kwargs = Some 0
   ∨ (Light.brightness kwargs = None ∧ brightness e = 0) →
   ∃ level,
     last (snd (turn_on e kwargs)) = Some (LEVEL, VFloat level)
     ∧ (level == 1)%Q
     ∧ length (List.filter is_level_write (snd (turn_on e kwargs))) = 1%nat)
  ∧ (_e_level_value e = None → brightness e = 0)
  ∧ (∀ level, (LEVEL, VFloat level) ∈ snd (turn_on e kwargs) → ¬ (level == 0)%Q).
Proof.
  split; [|split].
  - intros Hguard Hzero.
    destruct (turn_on_writes e kwargs Hguard) as (ws & Hw & Hws).
    assert (effective_brightness e kwargs = 255) as H255.
    { unfold effective_brightness. destruct Hzero as [->|[-> ->]]; reflexivity. }
    rewrite H255 in Hw. exists (inject_Z 255 / _MAX_BRIGHTNESS)%Q.
    rewrite Hw. split; [apply last_snoc|].
    split; [reflexivity|].
    rewrite List.filter_app, List.length_app.
    assert (List.filter is_level_write ws = []) as Hnone.
    { clear Hw. induction Hws as [|w ws Hw Hws IH]; [reflexivity|].
      cbn [List.filter]. rewrite Hw. exact IH. }
    rewrite Hnone. reflexivity.
  - intros Hnone. unfold brightness. rewrite Hnone. reflexivity.
  - intros level Hin.
    destruct (is_state_change e (mkStateChangeArgs (Some true) None kwargs)) eqn:Hguard.
    + destruct (turn_on_writes e kwargs Hguard) as (ws & Hw & Hws).
      rewrite Hw in Hin. apply elem_of_app in Hin as [Hin|Hin].
      * rewrite Forall_forall in Hws. specialize (Hws _ Hin). discriminate.
      * apply list_elem_of_singleton in Hin. injection Hin as ->.
        apply level_of_nonzero. unfold effective_brightness. cbv zeta.
        destruct (_ =? 0) eqn:E; [discriminate | apply Z.eqb_neq in E; exact E].
    + unfold turn_on in Hin. rewrite Hguard in Hin. cbn in Hin.
      apply elem_of_nil in Hin. contradiction.
Qed.

Lemma C10_turn_on_never_writes_level_zero_witness :
  (∃ level,
     last (snd (turn_on half_lit (only_brightness 0))) = Some (LEVEL, VFloat level)
     ∧ (level == 1)%Q
     ∧ length (List.filter is_level_write
                 (snd (turn_on half_lit (only_brightness 0)))) = 1%nat)
  ∧ (∃ level,
       last (snd (turn_on unset no_args)) = Some (LEVEL, VFloat level)
       ∧ (level == 1)%Q
       ∧ length (List.filter is_level_write (snd (turn_on unset no_args))) = 1%nat)
  ∧ brightness unset = 0.
Proof.
  split; [|split].
  - apply (proj1 (C10_turn_on_never_writes_level_zero half_lit (only_brightness 0))).
    + vm_compute. reflexivity.
    + left. reflexivity.
  - apply (proj1 (C10_turn_on_never_writes_level_zero unset no_args)).
    + vm_compute. reflexivity.
    + right. split; reflexivity.
  - apply (proj1 (proj2 (C10_turn_on_never_writes_level_zero unset no_args))).
    reflexivity.
Defined.

End DimmerFacts.

(* ===================================================================== *)
(** * Further properties of PingPongCache                                 *)
(* ===================================================================== *)

Section PingPongMoreFacts.
Import DateTime PingPong PingPongRuns.

(** X1.  Low and high exclude each other: at one clock reading, a set
    whose live count is below half the threshold is not above the
    threshold, for the pending and for the unknown set. *)
Theorem X1_low_excludes_high (c : PingPongCache) (now : datetime) :
  (value (low_pending_pongs now c) = true →
   value (high_pending_pongs now c) = false)
  ∧ (value (low_unknown_pongs now c) = true →
     value (high_unknown_pongs now c) = false).
Proof.
  rewrite low_pending_pongs_run, high_pending_pongs_run,
    low_unknown_pongs_run, high_unknown_pongs_run.
  cbn [value fst].
  pose proof (len_nonneg (cleanup (_ttl c) now (_pending_pongs c))).
  pose proof (len_nonneg (cleanup (_ttl c) now (_unknown_pongs c))).
  split; intros Hlow; apply bool_decide_eq_true_1 in Hlow;
    apply bool_decide_eq_false_2; lia.
Qed.

Lemma X1_low_excludes_high_witness :
  value (high_pending_pongs (of_seconds 1) two_of_six) = false
  ∧ value (high_unknown_pongs (of_seconds 1) two_of_six) = false.
Proof.
  split.
  - apply (proj1 (X1_low_excludes_high two_of_six (of_seconds 1))).
    vm_compute. reflexivity.
  - apply (proj2 (X1_low_excludes_high two_of_six (of_seconds 1))).
    vm_compute. reflexivity.
Defined.

(** X2.  Recovery is asymmetric.  A PENDING_PONG evaluation that finds
    the live pending count low fires exactly the zero-mismatch event,
    clears [pending_pong_logged] and returns before the unknown set is
    swept or its flag touched.  An UNKNOWN_PONG evaluation that finds the
    live unknown count low fires and logs nothing; it clears
    [unknown_pong_logged] and leaves [pending_pong_logged] as it was. *)
Theorem X2_recovery (c : PingPongCache) (now : datetime) (cnt : Z) :
  (2 * live_count PENDING_PONG now c < _allowed_delta c →
   let r := _check_and_fire_pong_event PENDING_PONG cnt now c in
   effects r = [Fire PENDING_PONG 0]
   ∧ _pending_pong_logged (cache r) = false
   ∧ _unknown_pongs (cache r) = _unknown_pongs c
   ∧ _unknown_pong_logged (cache r) = _unknown_pong_logged c)
  ∧ (2 * live_count UNKNOWN_PONG now c < _allowed_delta c →
     let r := _check_and_fire_pong_event UNKNOWN_PONG cnt now c in
     effects r = []
     ∧ _unknown_pong_logged (cache r) = false
     ∧ _pending_pong_logged (cache r) = _pending_pong_logged c).
Proof.
  split; intros Hlow r; subst r; unfold live_count in Hlow; cbn [counted] in Hlow.
  - rewrite check_pending_run. unfold check_pending_result.
    rewrite (bool_decide_eq_true_2 _ Hlow). cbn. auto.
  - rewrite check_unknown_run. unfold check_unknown_result.
    rewrite (bool_decide_eq_true_2 _ Hlow). cbn. auto.
Qed.

Lemma X2_recovery_witness :
  effects (_check_and_fire_pong_event PENDING_PONG 2 (of_seconds 1) two_of_six)
    = [Fire PENDING_PONG 0]
  ∧ effects (_check_and_fire_pong_event UNKNOWN_PONG 0 (of_seconds 1) two_of_six)
      = [].
Proof.
  split.
  - apply (proj1 (X2_recovery two_of_six (of_seconds 1) 2)).
    vm_compute. reflexivity.
  - apply (proj2 (X2_recovery two_of_six (of_seconds 1) 0)).
    vm_compute. reflexivity.
Defined.

(** ** What a run can put into the sets *)

Lemma step_send_unknown ts now c :
  _unknown_pongs (cache (handle_send_ping ts now c)) ⊆ _unknown_pongs c.
Proof.
  rewrite handle_send_ping_run. unfold check_pending_result.
  repeat case_bool_decide; cbn; try apply cleanup_subseteq; reflexivity.
Qed.

Lemma step_pong_unknown ts now c :
  _unknown_pongs (cache (handle_received_pong ts now c))
    ⊆ {[ts]} ∪ _unknown_pongs c.
Proof.
  destruct (decide (ts ∈ _pending_pongs c)) as [Hin|Hout].
  - rewrite handle_received_pong_known by exact Hin. unfold check_pending_result.
    assert (cleanup (_ttl c) now (_unknown_pongs c) ⊆ {[ts]} ∪ _unknown_pongs c).
    { intros x Hx. apply cleanup_subseteq in Hx. apply elem_of_union. tauto. }
    repeat case_bool_decide; cbn; try assumption.
    apply union_subseteq_r.
  - rewrite handle_received_pong_unknown by exact Hout. unfold check_unknown_result.
    repeat case_bool_decide; cbn; apply cleanup_subseteq.
Qed.

Lemma step_keeps_config k c :
  _allowed_delta (fst (step k c)) = _allowed_delta c
  ∧ _ttl (fst (step k c)) = _ttl c.
Proof.
  destruct k as [now ts|now ts]; cbn [step fst].
  - rewrite handle_send_ping_run. unfold check_pending_result.
    repeat case_bool_decide; cbn; auto.
  - destruct (decide (ts ∈ _pending_pongs c)) as [Hin|Hout].
    + rewrite handle_received_pong_known by exact Hin. unfold check_pending_result.
      repeat case_bool_decide; cbn; auto.
    + rewrite handle_received_pong_unknown by exact Hout.
      unfold check_unknown_result. repeat case_bool_decide; cbn; auto.
Qed.

(** X3.  Whatever the calls and their times, a run keeps [allowed_delta]
    and [ttl], holds as pending only timestamps that were pending before
    or were sent during the run, and holds as unknown only timestamps that
    were unknown before or were received during the run. *)
Theorem X3_run_invariant (ks : list Call) (c : PingPongCache) :
  _allowed_delta (fst (run ks c)) = _allowed_delta c
  ∧ _ttl (fst (run ks c)) = _ttl c
  ∧ _pending_pongs (fst (run ks c)) ⊆ _pending_pongs c ∪ list_to_set (sent ks)
  ∧ _unknown_pongs (fst (run ks c)) ⊆ _unknown_pongs c ∪ list_to_set (received ks).
Proof.
  revert c. induction ks as [|k ks IH]; intros c.
  - cbn. repeat split; apply union_subseteq_l.
  - cbn [run]. destruct (step_keeps_config k c) as [HD HT].
    assert (_pending_pongs (fst (step k c))
              ⊆ _pending_pongs c ∪ list_to_set (sent [k])) as HP.
    { destruct k as [now ts|now ts]; cbn [step fst sent].
      - intros x Hx. apply step_send_subseteq in Hx. set_solver.
      - intros x Hx. apply step_pong_subseteq in Hx. set_solver. }
    assert (_unknown_pongs (fst (step k c))
              ⊆ _unknown_pongs c ∪ list_to_set (received [k])) as HU.
    { destruct k as [now ts|now ts]; cbn [step fst received].
      - intros x Hx. apply step_send_unknown in Hx. set_solver.
      - intros x Hx. apply step_pong_unknown in Hx. set_solver. }
    destruct (step k c) as [c1 e1]. cbn [fst] in *.
    destruct (IH c1) as (HD' & HT' & HP' & HU').
    destruct (run ks c1) as [c2 e2]. cbn [fst] in *.
    rewrite HD', HT', HD, HT. repeat split.
    + intros x Hx. apply HP' in Hx.
      destruct k; cbn [sent] in *; set_solver.
    + intros x Hx. apply HU' in Hx.
      destruct k; cbn [received] in *; set_solver.
Qed.

(** ** The age test at its edges *)

Lemma seconds_bounds (d : timedelta) : 0 ≤ seconds d < seconds_per_day.
Proof.
  unfold seconds, seconds_per_day. apply Z.mod_pos_bound. lia.
Qed.

(** X4.  With a ttl of 86399 seconds or more nothing ever expires:
    [delta.seconds] is below one day, so the sweep removes no entry and
    every accessor leaves both sets as they are. *)
Theorem X4_day_long_ttl_never_expires (c : PingPongCache) (now : datetime) :
  86399 ≤ _ttl c →
  _pending_pongs (cache (high_pending_pongs now c)) = _pending_pongs c
  ∧ _pending_pongs (cache (low_pending_pongs now c)) = _pending_pongs c
  ∧ _unknown_pongs (cache (high_unknown_pongs now c)) = _unknown_pongs c
  ∧ _unknown_pongs (cache (low_unknown_pongs now c)) = _unknown_pongs c.
Proof.
  intros Httl.
  assert (∀ s : gset datetime, cleanup (_ttl c) now s = s) as Hid.
  { intros s. apply cleanup_fresh. intros x _. unfold expired.
    apply bool_decide_eq_false_2.
    pose proof (seconds_bounds (sub now x)) as Hb.
    unfold seconds_per_day in Hb. lia. }
  rewrite high_pending_pongs_run, low_pending_pongs_run,
    high_unknown_pongs_run, low_unknown_pongs_run.
  cbn [cache fst snd set_pending set_unknown _pending_pongs _unknown_pongs].
  rewrite !Hid. auto.
Qed.

Lemma X4_day_long_ttl_never_expires_witness :
  _pending_pongs
    (cache (high_pending_pongs (of_seconds 500000)
              (cache (handle_send_ping 0 0 (init 10 86399)))))
  = _pending_pongs (cache (handle_send_ping 0 0 (init 10 86399))).
Proof.
  refine (proj1 (X4_day_long_ttl_never_expires
                   (cache (handle_send_ping 0 0 (init 10 86399)))
                   (of_seconds 500000) _)).
  vm_compute. discriminate.
Defined.

Lemma fresh_within_ttl ttl now ts :
  0 ≤ sub now ts < of_seconds (ttl + 1) →
  expired ttl now ts = false.
Proof.
  intros [H0 H1]. unfold expired. apply bool_decide_eq_false_2.
  unfold seconds, of_seconds, us_per_second, seconds_per_day in *.
  assert (0 ≤ sub now ts / 1000000) by (apply Z.div_pos; lia).
  assert (sub now ts / 1000000 < ttl + 1)
    by (apply Z.div_lt_upper_bound; lia).
  pose proof (Z.mod_le (sub now ts / 1000000) 86400
                ltac:(assumption) ltac:(lia)).
  lia.
Qed.

(** X5.  The sweep keeps what is young: an entry stamped [ts] that an
    accessor meets less than [ttl + 1] seconds after [ts] stays in its
    set. *)
Theorem X5_sweeping_accessors_keep_fresh (c : PingPongCache) (now ts : datetime) :
  0 ≤ sub now ts < of_seconds (_ttl c + 1) →
  (ts ∈ _pending_pongs c →
   ts ∈ _pending_pongs (cache (high_pending_pongs now c))
   ∧ ts ∈ _pending_pongs (cache (low_pending_pongs now c)))
  ∧ (ts ∈ _unknown_pongs c →
     ts ∈ _unknown_pongs (cache (high_unknown_pongs now c))
     ∧ ts ∈ _unknown_pongs (cache (low_unknown_pongs now c))).
Proof.
  intros Hage. pose proof (fresh_within_ttl _ _ _ Hage) as Hfresh.
  rewrite high_pending_pongs_run, low_pending_pongs_run,
    high_unknown_pongs_run, low_unknown_pongs_run.
  cbn [cache fst snd set_pending set_unknown _pending_pongs _unknown_pongs].
  rewrite !elem_of_cleanup. tauto.
Qed.

Lemma X5_sweeping_accessors_keep_fresh_witness :
  0 ∈ _pending_pongs (cache (high_pending_pongs (of_seconds 300) one_ping)).
Proof.
  refine (proj1 (proj1 (X5_sweeping_accessors_keep_fresh one_ping
                          (of_seconds 300) 0 _) _)).
  - vm_compute. split; [discriminate | reflexivity].
  - rewrite one_ping_pending. apply elem_of_singleton. reflexivity.
Defined.

(** X6.  A ping stamped ahead of the clock is dropped by the call that
    sends it: when [ping_ts] lies up to [86399 - ttl] seconds after the
    reading of [handle_send_ping], the negative difference has a
    [seconds] field above [ttl], and the sweep of the evaluation removes
    the entry just inserted. *)
Theorem X6_future_ping_dropped (c : PingPongCache) (now ping_ts : datetime) :
  0 ≤ _ttl c →
  of_seconds (_ttl c - 86399) ≤ sub now ping_ts < 0 →
  ping_ts ∉ _pending_pongs (cache (handle_send_ping ping_ts now c)).
Proof.
  intros Httl [Hlo Hhi].
  assert (expired (_ttl c) now ping_ts = true) as Hexp.
  { unfold expired. apply bool_decide_eq_true_2.
    unfold seconds, of_seconds, us_per_second, seconds_per_day in *.
    assert (_ttl c - 86399 ≤ sub now ping_ts / 1000000)
      by (apply Z.div_le_lower_bound; lia).
    assert (sub now ping_ts / 1000000 < 0)
      by (apply Z.div_lt_upper_bound; lia).
    replace (sub now ping_ts / 1000000)
      with ((sub now ping_ts / 1000000 + 86400) + (-1) * 86400) by lia.
    rewrite Z.mod_add by lia. rewrite Z.mod_small by lia. lia. }
  rewrite handle_send_ping_run. unfold check_pending_result.
  repeat case_bool_decide; cbn; rewrite elem_of_cleanup; intros [_ Hkept];
    congruence.
Qed.

Lemma X6_future_ping_dropped_witness :
  of_seconds 10 ∉ _pending_pongs (cache (handle_send_ping (of_seconds 10) 0 (init 10 300))).
Proof.
  apply (X6_future_ping_dropped (init 10 300) 0 (of_seconds 10)).
  - vm_compute. discriminate.
  - vm_compute. split; [discriminate | reflexivity].
Defined.

End PingPongMoreFacts.

(* ===================================================================== *)
(** * Further properties of DeviceDetailsCache                            *)
(* ===================================================================== *)

Section DeviceDetailsMoreFacts.
Import DateTime Support DeviceDetails DeviceDetailsRooms.

Variable INIT_DATETIME : datetime.
Variable MAX_CACHE_AGE : Z.
Variable BIDCOS_RF : string.

(** X7.  [add_name] and [add_interface] keep the first entry of an
    address, [add_device_channel_id] keeps the last; none of them touches
    another address. *)
Theorem X7_first_and_last_writer (c : DeviceDetailsCache) (address x y : string) :
  get_name (add_name address y (add_name address x c)) address
    = Some (default x (get_name c address))
  ∧ _interface_cache (add_interface address y (add_interface address x c)) !! address
      = Some (default x (_interface_cache c !! address))
  ∧ _device_channel_ids
      (add_device_channel_id address y (add_device_channel_id address x c)) !! address
      = Some y
  ∧ (∀ other, other ≠ address →
       get_name (add_name address x c) other = get_name c other
       ∧ _interface_cache (add_interface address x c) !! other
           = _interface_cache c !! other
       ∧ _device_channel_ids (add_device_channel_id address x c) !! other
           = _device_channel_ids c !! other).
Proof.
  unfold get_name, add_name, add_interface, add_device_channel_id.
  repeat split.
  - destruct (_names_cache c !! address) eqn:E; cbn.
    + rewrite E. exact E.
    + rewrite lookup_insert_eq. cbn. apply lookup_insert_eq.
  - destruct (_interface_cache c !! address) eqn:E; cbn.
    + rewrite E. exact E.
    + rewrite lookup_insert_eq. cbn. apply lookup_insert_eq.
  - cbn. apply lookup_insert_eq.
  - destruct (_names_cache c !! address); cbn; [reflexivity|].
    apply lookup_insert_ne. congruence.
  - destruct (_interface_cache c !! address); cbn; [reflexivity|].
    apply lookup_insert_ne. congruence.
  - cbn. apply lookup_insert_ne. congruence.
Qed.

(** X8.  [get_interface] never returns the empty string when the default
    is not empty: an unmapped address and an address mapped to the empty
    string both read as the default; and since [add_interface] keeps the
    first entry, an address first mapped to the empty string reads as the
    default whatever is added for it later. *)
Theorem X8_get_interface_default (c : DeviceDetailsCache) (address : string) :
  BIDCOS_RF ≠ EmptyString →
  get_interface BIDCOS_RF c address ≠ EmptyString
  ∧ (_interface_cache c !! address = None →
     get_interface BIDCOS_RF c address = BIDCOS_RF
     ∧ ∀ interface,
         get_interface BIDCOS_RF
           (add_interface address interface
              (add_interface address EmptyString c)) address
         = BIDCOS_RF).
Proof.
  intros Hdef. unfold get_interface. split.
  - destruct (_interface_cache c !! address) as [i|]; [|exact Hdef].
    destruct (String.eqb i EmptyString) eqn:E; [exact Hdef|].
    apply String.eqb_neq in E. exact E.
  - intros Hnone. rewrite Hnone. split; [reflexivity|]. intros i.
    unfold add_interface. rewrite Hnone. cbn. rewrite lookup_insert_eq. cbn.
    rewrite lookup_insert_eq. reflexivity.
Qed.

(** ** Rooms *)

Lemma elem_of_get_device_rooms (c : DeviceDetailsCache) (device_address room : string) :
  room ∈ get_device_rooms c device_address
  ↔ ∃ channel_address channel_rooms,
      _channel_rooms c !! channel_address = Some channel_rooms
      ∧ startswith channel_address device_address = true
      ∧ room ∈ channel_rooms.
Proof.
  unfold get_device_rooms. generalize (_channel_rooms c). intros m.
  apply (map_fold_weak_ind
           (fun (acc : gset string) (m : gmap string (gset string)) =>
              room ∈ acc
              ↔ ∃ ch rs, m !! ch = Some rs
                         ∧ startswith ch device_address = true ∧ room ∈ rs)).
  - split.
    + intros H. apply not_elem_of_empty in H. contradiction.
    + intros (ch & rs & H & _). rewrite lookup_empty in H. discriminate.
  - intros ch rs m' acc Hnew IH. split.
    + intros H.
      destruct (startswith ch device_address) eqn:E.
      * apply elem_of_union in H as [H|H].
        -- apply IH in H as (ch' & rs' & Hl & Hp & Hr).
           exists ch', rs'. rewrite lookup_insert_ne; [auto|].
           intros ->. congruence.
        -- exists ch, rs. rewrite lookup_insert_eq. auto.
      * apply IH in H as (ch' & rs' & Hl & Hp & Hr).
        exists ch', rs'. rewrite lookup_insert_ne; [auto|].
        intros ->. congruence.
    + intros (ch' & rs' & Hl & Hp & Hr).
      destruct (decide (ch = ch')) as [->|Hne].
      * rewrite lookup_insert_eq in Hl. injection Hl as ->.
        rewrite Hp. apply elem_of_union. right. exact Hr.
      * rewrite lookup_insert_ne in Hl by exact Hne.
        assert (room ∈ acc) as Hacc by (apply IH; eauto).
        destruct (startswith ch device_address);
          [apply elem_of_union; left|]; exact Hacc.
Qed.

(** X9.  [get_device_rooms] is the union of the rooms of exactly the
    channels whose address has the device address as a string prefix: it
    contains the rooms of each such channel ([get_channel_rooms]), and a
    room it contains belongs to one of them.  The test is the plain
    prefix, so for the empty address it is the union over all channels. *)
Theorem X9_get_device_rooms (c : DeviceDetailsCache) (device_address : string) :
  (∀ room,
     room ∈ get_device_rooms c device_address
     ↔ ∃ channel_address,
         startswith channel_address device_address = true
         ∧ room ∈ get_channel_rooms c channel_address)
  ∧ (∀ channel_address,
       startswith channel_address device_address = true →
       get_channel_rooms c channel_address ⊆ get_device_rooms c device_address)
  ∧ (∀ channel_address,
       get_channel_rooms c channel_address ⊆ get_device_rooms c EmptyString).
Proof.
  assert (∀ dev room,
            room ∈ get_device_rooms c dev
            ↔ ∃ ch, startswith ch dev = true ∧ room ∈ get_channel_rooms c ch)
    as Hchar.
  { intros dev room. rewrite elem_of_get_device_rooms. unfold get_channel_rooms.
    split.
    - intros (ch & rs & Hl & Hp & Hr). exists ch. rewrite Hl. auto.
    - intros (ch & Hp & Hr). destruct (_channel_rooms c !! ch) as [rs|] eqn:E.
      + exists ch, rs. auto.
      + cbn in Hr. apply not_elem_of_empty in Hr. contradiction. }
  split; [apply Hchar|]. split.
  - intros ch Hp room Hr. apply Hchar. eauto.
  - intros ch room Hr. apply Hchar. exists ch. split; [|exact Hr].
    unfold startswith. destruct ch; reflexivity.
Qed.

(** ** [remove_device] once more, and [load] *)

(** X10.  [remove_device] is idempotent, and removing two devices gives
    the same cache in either order. *)
Theorem X10_remove_device_composes (c : DeviceDetailsCache) (d1 d2 : HmDevice) :
  remove_device d1 (remove_device d1 c) = remove_device d1 c
  ∧ remove_device d1 (remove_device d2 c) = remove_device d2 (remove_device d1 c).
Proof.
  assert (∀ d (names : gmap string string) a,
            foldl (fun names ch => del_if_present ch names)
                  (del_if_present (device_address d) names) (channels d) !! a
            = if bool_decide (a = device_address d ∨ a ∈ channels d)
              then None else names !! a) as Hlook.
  { intros d names a. rewrite lookup_remove_channels, del_if_present_delete.
    destruct (decide (a ∈ channels d)) as [Hin|Hout].
    - rewrite !bool_decide_eq_true_2; auto.
    - rewrite (bool_decide_eq_false_2 _ Hout).
      destruct (decide (a = device_address d)) as [->|Hne].
      + rewrite lookup_delete_eq, bool_decide_eq_true_2; auto.
      + rewrite lookup_delete_ne by congruence.
        rewrite bool_decide_eq_false_2; [reflexivity | tauto]. }
  unfold remove_device. cbn [_names_cache _channel_rooms _device_channel_ids
                             _functions _interface_cache _last_refreshed].
  split; f_equal; apply map_eq; intros a; rewrite !Hlook;
    repeat case_bool_decide; reflexivity.
Qed.

Lemma callback_keeps_interface (cb : DetailCallback) (c : DeviceDetailsCache) a i :
  _interface_cache c !! a = Some i →
  _interface_cache (callback cb c) !! a = Some i.
Proof.
  intros H. destruct cb as [a' n|a' i'|a' id]; cbn.
  - unfold add_name. destruct (_names_cache c !! a'); exact H.
  - unfold add_interface. destruct (_interface_cache c !! a') eqn:E; [exact H|].
    cbn. rewrite lookup_insert_ne; [exact H|]. intros ->. congruence.
  - exact H.
Qed.

Lemma callbacks_keep_interface (cbs : list DetailCallback) : ∀ c a i,
  _interface_cache c !! a = Some i →
  _interface_cache (foldl (fun c cb => callback cb c) c cbs) !! a = Some i.
Proof.
  induction cbs as [|cb cbs IH]; intros c a i H; cbn [foldl]; [exact H|].
  apply IH. apply callback_keeps_interface. exact H.
Qed.

Lemma callbacks_name_only_named (cbs : list DetailCallback) : ∀ c a,
  Forall (fun cb => names_address cb ≠ Some a) cbs →
  _names_cache c !! a = None →
  _names_cache (foldl (fun c cb => callback cb c) c cbs) !! a = None.
Proof.
  induction cbs as [|cb cbs IH]; intros c a Hall H; cbn [foldl]; [exact H|].
  apply Forall_cons in Hall as [Hcb Hall]. apply IH; [exact Hall|].
  destruct cb as [a' n|a' i'|a' id]; cbn in *.
  - unfold add_name. destruct (_names_cache c !! a') eqn:E; [exact H|].
    cbn. rewrite lookup_insert_ne; [exact H|]. congruence.
  - unfold add_interface. destruct (_interface_cache c !! a'); exact H.
  - exact H.
Qed.

(** X11.  A [load] that passes the time gate stamps [last_refreshed] with
    the time of the call, with or without a primary client; it keeps the
    interface of every address that had one; it forgets the name of every
    address the backend does not name again; and the rooms and functions
    are those the backend returns (none without a primary client, where
    no backend call is made at all). *)
Theorem X11_load_refreshes (c : DeviceDetailsCache) (now : datetime)
    (primary_client : option Client) :
  ¬ (2 * sub now (_last_refreshed c) ≤ of_seconds MAX_CACHE_AGE) →
  let r := load INIT_DATETIME MAX_CACHE_AGE now primary_client c in
  _last_refreshed (fst r) = now
  ∧ (∀ address interface,
       _interface_cache c !! address = Some interface →
       _interface_cache (fst r) !! address = Some interface)
  ∧ (∀ address,
       Forall (fun cb => names_address cb ≠ Some address)
              (from_option fetch_device_details [] primary_client) →
       get_name (fst r) address = None)
  ∧ _channel_rooms (fst r) = from_option get_all_rooms ∅ primary_client
  ∧ _functions (fst r) = from_option get_all_functions ∅ primary_client
  ∧ (primary_client = None → snd r = [])
  ∧ (is_Some primary_client →
     snd r = [FetchDeviceDetails; GetAllRooms; GetAllFunctions]).
Proof.
  intros Hopen r. subst r. unfold load.
  destruct (changed_within_seconds _ _ _) eqn:E.
  { apply half_max_age in E. contradiction. }
  destruct primary_client as [client|]; cbn [fst snd from_option
    _last_refreshed _interface_cache _channel_rooms _functions _names_cache].
  - repeat split.
    + intros a i H. apply callbacks_keep_interface. exact H.
    + intros a Hall. unfold get_name. cbn [_names_cache].
      apply callbacks_name_only_named; [exact Hall | reflexivity].
    + intros Hnone. discriminate.
  - repeat split; auto.
    intros [? Hsome]. discriminate.
Qed.

End DeviceDetailsMoreFacts.

Lemma X8_get_interface_default_witness :
  DeviceDetails.get_interface "BidCos-RF" DeviceDetails.sample_cache "VCU0000002"
    = "BidCos-RF".
Proof.
  refine (proj1 (proj2 (X8_get_interface_default "BidCos-RF"
                          DeviceDetails.sample_cache "VCU0000002" _) _)).
  - discriminate.
  - vm_compute. reflexivity.
Defined.

Lemma X9_get_device_rooms_witness :
  DeviceDetails.get_channel_rooms DeviceDetailsRooms.rooms_cache "VCU12:1"
    ⊆ DeviceDetailsRooms.get_device_rooms DeviceDetailsRooms.rooms_cache "VCU1".
Proof.
  apply (proj1 (proj2 (X9_get_device_rooms DeviceDetailsRooms.rooms_cache "VCU1"))).
  vm_compute. reflexivity.
Defined.

Lemma X11_load_refreshes_witness :
  DeviceDetails.get_name
    (fst (DeviceDetails.load 0 60 (DateTime.of_seconds 100)
            (Some DeviceDetailsRooms.naming_client) DeviceDetails.sample_cache))
    "VCU0000002" = None
  ∧ DeviceDetails._interface_cache
      (fst (DeviceDetails.load 0 60 (DateTime.of_seconds 100)
              (Some DeviceDetailsRooms.naming_client) DeviceDetails.sample_cache))
      !! "VCU0000001" = Some "HmIP-RF".
Proof.
  destruct (X11_load_refreshes 0 60 DeviceDetails.sample_cache
              (DateTime.of_seconds 100) (Some DeviceDetailsRooms.naming_client))
    as (_ & Hif & Hnames & _).
  - vm_compute. intros H. apply H. reflexivity.
  - split.
    + apply Hnames. cbn. repeat constructor; discriminate.
    + apply Hif. vm_compute. reflexivity.
Defined.

(* ===================================================================== *)
(** * Further properties of CentralDataCache                              *)
(* ===================================================================== *)

Section CentralDataMoreFacts.
Import DateTime Support CentralData CentralDataKeys.

Context {V : Type}.
Variable NO_CACHE_ENTRY : V.
Variable INIT_DATETIME : datetime.
Variable MAX_CACHE_AGE : Z.

Abbreviation is_empty' := (is_empty INIT_DATETIME MAX_CACHE_AGE).
Abbreviation get_data' := (get_data NO_CACHE_ENTRY INIT_DATETIME MAX_CACHE_AGE).
Abbreviation load' := (load INIT_DATETIME MAX_CACHE_AGE).

Lemma fresh_changed (now last_refreshed : datetime) :
  sub now last_refreshed ≤ of_seconds MAX_CACHE_AGE →
  changed_within_seconds now last_refreshed (of_seconds MAX_CACHE_AGE) = true.
Proof.
  intros H. unfold changed_within_seconds, is_stale.
  rewrite bool_decide_eq_false_2 by lia. reflexivity.
Qed.

(** X12.  What [add_data] stores, [get_data] returns for as long as the
    cache is not older than [MAX_CACHE_AGE]: the newly added value of the
    key when there is one, else the value the cache already held, else
    [NO_CACHE_ENTRY]. *)
Theorem X12_add_data_then_get_data (c : CentralDataCache (V:=V))
    (now now' : datetime) (all_device_data : gmap string V)
    (interface channel_address parameter : string) :
  sub now' now ≤ of_seconds MAX_CACHE_AGE →
  fst (get_data' now' (add_data now all_device_data c)
         interface channel_address parameter)
  = default
      (default NO_CACHE_ENTRY
         (_value_cache c !! key interface channel_address parameter))
      (all_device_data !! key interface channel_address parameter).
Proof.
  intros Hfresh. unfold CentralData.get_data, CentralData.is_empty, add_data.
  cbn [_value_cache _last_refreshed].
  set (k := key interface channel_address parameter).
  case_bool_decide as Hsize.
  - apply map_size_empty_inv in Hsize.
    assert ((all_device_data ∪ _value_cache c) !! k = None) as Hk
      by (rewrite Hsize; apply lookup_empty).
    apply lookup_union_None in Hk as [-> ->]. reflexivity.
  - rewrite (fresh_changed _ _ Hfresh). cbn [negb fst _value_cache].
    rewrite lookup_union.
    destruct (all_device_data !! k), (_value_cache c !! k); reflexivity.
Qed.

(** X13.  Reading does not change a cache that is not older than
    [MAX_CACHE_AGE]: [is_empty] and [get_data] return the cache as it is;
    and whatever the age, a key the cache does not hold reads as
    [NO_CACHE_ENTRY]. *)
Theorem X13_reads_leave_fresh_cache (c : CentralDataCache (V:=V))
    (now : datetime) (interface channel_address parameter : string) :
  (sub now (_last_refreshed c) ≤ of_seconds MAX_CACHE_AGE →
   snd (is_empty' now c) = c
   ∧ snd (get_data' now c interface channel_address parameter) = c)
  ∧ (_value_cache c !! key interface channel_address parameter = None →
     fst (get_data' now c interface channel_address parameter) = NO_CACHE_ENTRY).
Proof.
  unfold CentralData.get_data, CentralData.is_empty. split.
  - intros Hfresh. rewrite (fresh_changed _ _ Hfresh).
    case_bool_decide; cbn; auto.
  - intros Hnone. case_bool_decide; cbn; [reflexivity|].
    destruct (changed_within_seconds _ _ _); cbn; [|reflexivity].
    rewrite Hnone. reflexivity.
Qed.

Lemma fetch_all_lookup_none (clients : list (Client (V:=V))) (now : datetime) k :
  ∀ c : CentralDataCache (V:=V),
  Forall (fun client => ∀ data, client = Some data → data !! k = None) clients →
  _value_cache c !! k = None →
  _value_cache (foldl (fun c client => fetch_all_device_data now client c) c clients)
    !! k = None.
Proof.
  induction clients as [|client clients IH]; intros c Hall Hc; cbn [foldl];
    [exact Hc|].
  apply Forall_cons in Hall as [H1 Hall]. apply IH; [exact Hall|].
  destruct client as [data|]; cbn; [|exact Hc].
  apply lookup_union_None. split; [apply H1; reflexivity | exact Hc].
Qed.

Lemma fetch_all_idle (clients : list (Client (V:=V))) (now : datetime) :
  ∀ c : CentralDataCache (V:=V),
  Forall (fun client => client = None) clients →
  foldl (fun c client => fetch_all_device_data now client c) c clients = c.
Proof.
  induction clients as [|client clients IH]; intros c Hall; [reflexivity|].
  apply Forall_cons in Hall as [-> Hall]. cbn. apply IH. exact Hall.
Qed.

Lemma foldl_snoc {A B} (f : A → B → A) (a : A) (l : list B) (b : B) :
  foldl f a (l ++ [b]) = f (foldl f a l) b.
Proof. revert a. induction l as [|x l IH]; intros a; cbn; [reflexivity | apply IH]. Qed.

(** X14.  A [load] that passes the time gate calls
    [fetch_all_device_data] once per client and starts from the cleared
    cache: a key that no client delivers is absent afterwards, whatever
    the cache held; a key the last client delivers has that client's
    value; and when no client delivers anything the cache is left
    cleared. *)
Theorem X14_load_replaces (c : CentralDataCache (V:=V)) (now : datetime)
    (clients : list (Client (V:=V))) :
  ¬ (2 * sub now (_last_refreshed c) ≤ of_seconds MAX_CACHE_AGE) →
  snd (load' now clients c) = length clients
  ∧ (∀ k,
       Forall (fun client => ∀ data, client = Some data → data !! k = None)
              clients →
       _value_cache (fst (load' now clients c)) !! k = None)
  ∧ (∀ earlier data k v,
       clients = earlier ++ [Some data] →
       data !! k = Some v →
       _value_cache (fst (load' now clients c)) !! k = Some v)
  ∧ (Forall (fun client => client = None) clients →
     fst (load' now clients c) = clear INIT_DATETIME c).
Proof.
  intros Hopen. unfold CentralData.load.
  destruct (changed_within_seconds _ _ _) eqn:E.
  { apply half_max_age in E. contradiction. }
  cbn [fst snd]. repeat split.
  - intros k Hall. apply fetch_all_lookup_none; [exact Hall | apply lookup_empty].
  - intros earlier data k v -> Hv. rewrite foldl_snoc. cbn.
    apply lookup_union_Some_l. exact Hv.
  - intros Hall. apply fetch_all_idle. exact Hall.
Qed.

End CentralDataMoreFacts.

Section CentralDataKeyFacts.
Import CentralData CentralDataKeys.

(** X15.  The escaped channel address holds no colon, and escaping keeps
    apart what was apart: two addresses without a percent sign that
    escape to the same string are the same address. *)
Theorem X15_replace_colon (s1 s2 : string) :
  has_char ":" (replace_colon s1) = false
  ∧ (has_char "%" s1 = false →
     has_char "%" s2 = false →
     replace_colon s1 = replace_colon s2 →
     s1 = s2).
Proof.
  split.
  - induction s1 as [|a s1 IH]; [reflexivity|].
    cbn [replace_colon]. destruct (Ascii.eqb a ":") eqn:E.
    + cbn. exact IH.
    + cbn [has_char]. rewrite IH, Ascii.eqb_sym, E. reflexivity.
  - revert s2. induction s1 as [|a s1 IH]; intros s2 H1 H2 Heq.
    + destruct s2 as [|b s2]; [reflexivity|]. cbn in Heq.
      destruct (Ascii.eqb b ":"); discriminate.
    + destruct s2 as [|b s2].
      * cbn in Heq. destruct (Ascii.eqb a ":"); discriminate.
      * cbn [has_char replace_colon] in H1, H2, Heq.
        apply orb_false_elim in H1 as [Ha H1].
        apply orb_false_elim in H2 as [Hb H2].
        destruct (Ascii.eqb a ":") eqn:Ea, (Ascii.eqb b ":") eqn:Eb.
        -- apply Ascii.eqb_eq in Ea, Eb. subst a b.
           cbn in Heq. injection Heq as Heq. f_equal. apply IH; assumption.
        -- cbn in Heq. injection Heq as Hc _. subst b. discriminate.
        -- cbn in Heq. injection Heq as Hc _. subst a. discriminate.
        -- injection Heq as -> Heq. f_equal. apply IH; assumption.
Qed.

End CentralDataKeyFacts.

Lemma X12_add_data_then_get_data_witness :
  fst (CentralData.get_data (-1) 0 60 (DateTime.of_seconds 60)
         (CentralData.add_data 0 {[ "BidCos-RF.VCU0000001%3A1.LEVEL" := 7 ]}
            CentralData.sample_cache)
         "BidCos-RF" "VCU0000001:1" "LEVEL")
  = 7.
Proof.
  rewrite X12_add_data_then_get_data.
  - vm_compute. reflexivity.
  - vm_compute. discriminate.
Defined.

Lemma X13_reads_leave_fresh_cache_witness :
  snd (CentralData.get_data (-1) 0 60 (DateTime.of_seconds 60)
         CentralData.sample_cache "BidCos-RF" "VCU0000001:1" "LEVEL")
    = CentralData.sample_cache
  ∧ fst (CentralData.get_data (-1) 0 60 (DateTime.of_seconds 60)
           CentralData.sample_cache "BidCos-RF" "VCU0000001:1" "STATE")
      = -1.
Proof.
  split.
  - refine (proj2 (proj1 (X13_reads_leave_fresh_cache (-1) 0 60
                            CentralData.sample_cache (DateTime.of_seconds 60)
                            "BidCos-RF" "VCU0000001:1" "LEVEL") _)).
    vm_compute. discriminate.
  - refine (proj2 (X13_reads_leave_fresh_cache (-1) 0 60
                     CentralData.sample_cache (DateTime.of_seconds 60)
                     "BidCos-RF" "VCU0000001:1" "STATE") _).
    vm_compute. reflexivity.
Defined.

Lemma X14_load_replaces_witness :
  snd (CentralData.load 0 60 (DateTime.of_seconds 100)
         [CentralDataKeys.first_client; CentralDataKeys.second_client]
         CentralData.sample_cache) = 2%nat
  ∧ CentralData._value_cache
      (fst (CentralData.load 0 60 (DateTime.of_seconds 100)
              [CentralDataKeys.first_client; CentralDataKeys.second_client]
              CentralData.sample_cache))
      !! "BidCos-RF.VCU0000001%3A1.LEVEL" = Some 5.
Proof.
  destruct (X14_load_replaces 0 60 CentralData.sample_cache
              (DateTime.of_seconds 100)
              [CentralDataKeys.first_client; CentralDataKeys.second_client])
    as (Hn & _ & Hlast & _).
  - vm_compute. intros H. apply H. reflexivity.
  - split; [exact Hn|].
    apply (Hlast [CentralDataKeys.first_client]
                 {[ "BidCos-RF.VCU0000001%3A1.LEVEL" := 5 ]}); reflexivity.
Defined.

Lemma X15_replace_colon_witness :
  CentralDataKeys.has_char ":" (CentralData.replace_colon "VCU0000001:1") = false
  ∧ "VCU0000001:1" = "VCU0000001:1".
Proof.
  split.
  - apply (proj1 (X15_replace_colon "VCU0000001:1" "VCU0000001:1")).
  - refine (proj2 (X15_replace_colon "VCU0000001:1" "VCU0000001:1") _ _ _);
      reflexivity.
Defined.

(* ===================================================================== *)
(** * Further properties of the timers                                    *)
(* ===================================================================== *)

Section TimerMoreFacts.
Import Light.
#[local] Open Scope Q_scope.

Lemma div60_le (x y : Q) : x / 60 <= y ↔ x <= y * 60.
Proof.
  split; intros H.
  - assert (x / 60 * 60 == x) as Hx by field.
    rewrite <- Hx. apply Qmult_le_compat_r; [exact H | discriminate].
  - apply Qle_shift_div_r; [reflexivity | exact H].
Qed.

Lemma div60_nonneg (x : Q) : 0 <= x → 0 <= x / 60.
Proof. intros H. apply Qle_shift_div_l; [reflexivity|]. rewrite Qmult_0_l. exact H. Qed.

(** X16.  For a time that is not the reserved 111600 and not negative,
    the value [_recalc_unit_timer] returns is not negative, and it is at
    most 16343 exactly when the time is at most 16343 hours (58834800
    seconds): there is no unit above HOURS. *)
Theorem X16_recalc_unit_timer_range (time : Q) :
  ¬ time == 111600 →
  0 <= time →
  0 <= fst (_recalc_unit_timer time)
  ∧ (fst (_recalc_unit_timer time) <= 16343 ↔ time <= 58834800).
Proof.
  intros Hne Hpos. unfold _recalc_unit_timer.
  rewrite (proj2 (float_eq_false _ _) Hne).
  destruct (gt time 16343) eqn:E1.
  - apply gt_true in E1.
    destruct (gt (time / 60) 16343) eqn:E2; cbn [fst].
    + split; [apply div60_nonneg, div60_nonneg, Hpos|].
      rewrite !div60_le. reflexivity.
    + apply gt_false in E2. split; [apply div60_nonneg, Hpos|].
      split; [|intros _; exact E2]. intros _.
      apply div60_le in E2. eapply Qle_trans; [exact E2|]. discriminate.
  - apply gt_false in E1. rewrite (proj2 (gt_false _ _) E1). cbn [fst].
    split; [exact Hpos|]. split; [|intros _; exact E1]. intros _.
    eapply Qle_trans; [exact E1|]. discriminate.
Qed.

Lemma X16_recalc_unit_timer_range_witness :
  0 <= fst (_recalc_unit_timer 100000)
  ∧ (fst (_recalc_unit_timer 100000) <= 16343 ↔ 100000 <= 58834800).
Proof.
  apply (X16_recalc_unit_timer_range 100000).
  - intros H. vm_compute in H. discriminate.
  - vm_compute. discriminate.
Defined.

(** X17.  The timer setters of [CeIpRGBWLight] write a unit only for
    MINUTES and HOURS.  For 111600 and for any time up to 16343 they make
    the value write alone (SECONDS is the enum value 0 and counts as
    false); above 16343 they write a unit that is not SECONDS and then
    the value. *)
Theorem X17_unit_written_only_above_seconds (time : Q) :
  (time == 111600 ∨ time <= 16343 →
   CeIpRGBWLight._set_on_time_value time = [(ON_TIME_VALUE, VFloat time)]
   ∧ CeIpRGBWLight._set_ramp_time_on_value time = [(RAMP_TIME_VALUE, VFloat time)])
  ∧ (¬ time == 111600 → 16343 < time →
     ∃ u v,
       u ≠ SECONDS
       ∧ _recalc_unit_timer time = (v, Some u)
       ∧ CeIpRGBWLight._set_on_time_value time
           = [(ON_TIME_UNIT, VUnit u); (ON_TIME_VALUE, VFloat v)]
       ∧ CeIpRGBWLight._set_ramp_time_on_value time
           = [(RAMP_TIME_UNIT, VUnit u); (RAMP_TIME_VALUE, VFloat v)]).
Proof.
  unfold CeIpRGBWLight._set_on_time_value, CeIpRGBWLight._set_ramp_time_on_value,
    _recalc_unit_timer.
  split.
  - intros H. destruct (float_eq time 111600) eqn:E; [split; reflexivity|].
    destruct H as [H|H]; [apply float_eq_false in E; contradiction|].
    rewrite (proj2 (gt_false _ _) H). rewrite (proj2 (gt_false _ _) H).
    split; reflexivity.
  - intros Hne Hgt.
    rewrite (proj2 (float_eq_false _ _) Hne), (proj2 (gt_true _ _) Hgt).
    destruct (gt (time / 60) 16343).
    + exists HOURS, (time / 60 / 60). repeat split. discriminate.
    + exists MINUTES, (time / 60). repeat split. discriminate.
Qed.

Lemma X17_unit_written_only_above_seconds_witness :
  CeIpRGBWLight._set_on_time_value 30 = [(ON_TIME_VALUE, VFloat 30)]
  ∧ ∃ u v,
      u ≠ SECONDS
      ∧ _recalc_unit_timer 20000 = (v, Some u)
      ∧ CeIpRGBWLight._set_on_time_value 20000
          = [(ON_TIME_UNIT, VUnit u); (ON_TIME_VALUE, VFloat v)]
      ∧ CeIpRGBWLight._set_ramp_time_on_value 20000
          = [(RAMP_TIME_UNIT, VUnit u); (RAMP_TIME_VALUE, VFloat v)].
Proof.
  split.
  - refine (proj1 (proj1 (X17_unit_written_only_above_seconds 30) _)).
    right. vm_compute. discriminate.
  - apply (proj2 (X17_unit_written_only_above_seconds 20000)).
    + intros H. vm_compute in H. discriminate.
    + vm_compute. reflexivity.
Defined.

End TimerMoreFacts.

(* ===================================================================== *)
(** * Further properties of the dimmer and its variants                   *)
(* ===================================================================== *)

Section DimmerMoreFacts.
Import Light Light.CeDimmer.

(** X18.  [turn_off] of a dimmer that is on writes the level 0 and
    nothing else; with a ramp time it always writes, on or off: the ramp
    time first when it is not 0, then the level 0. *)
Theorem X18_turn_off_writes (e : CeDimmer) :
  (is_on e = true → turn_off e None = (e, [(LEVEL, VFloat _DIMMER_OFF)]))
  ∧ (∀ ramp_time,
       turn_off e (Some ramp_time)
       = (e, (if truthy ramp_time then [(RAMP_TIME_VALUE, VFloat ramp_time)] else [])
             ++ [(LEVEL, VFloat _DIMMER_OFF)])).
Proof.
  split.
  - intros Hon. unfold turn_off, is_state_change, len, differs. cbn.
    rewrite Hon. cbn. reflexivity.
  - intros r. unfold turn_off, is_state_change, len, differs. cbn.
    rewrite andb_false_r. cbn.
    destruct (truthy r); reflexivity.
Qed.

Lemma X18_turn_off_writes_witness :
  turn_off half_lit None = (half_lit, [(LEVEL, VFloat _DIMMER_OFF)]).
Proof.
  apply (proj1 (X18_turn_off_writes half_lit)). vm_compute. reflexivity.
Defined.

(** X19.  A timer defeats the state-change guard: with [ramp_time] or
    [on_time] passed, whatever else is passed and whatever the state,
    [is_state_change] is true and [turn_on] ends with a LEVEL write; so
    [turn_on(brightness=X, on_time=t)] writes even when the brightness is
    already [X]. *)
Theorem X19_timer_forces_write (e : CeDimmer) (kwargs : LightOnArgs) :
  is_Some (ramp_time kwargs) ∨ is_Some (on_time kwargs) →
  is_state_change e (mkStateChangeArgs (Some true) None kwargs) = true
  ∧ ∃ ws level, snd (turn_on e kwargs) = ws ++ [(LEVEL, VFloat level)].
Proof.
  intros Htimer.
  assert (is_state_change e (mkStateChangeArgs (Some true) None kwargs) = true)
    as Hguard.
  { unfold is_state_change. cbn [args on off].
    destruct Htimer as [H|H]; rewrite (bool_decide_eq_true_2 _ H);
      repeat match goal with
             | |- (if true then true else _) = true => reflexivity
             | |- (if ?b then true else _) = true => destruct b; [reflexivity|]
             end; reflexivity. }
  split; [exact Hguard|].
  destruct (turn_on_writes e kwargs Hguard) as (ws & Hw & _). eauto.
Qed.

Lemma X19_timer_forces_write_witness :
  is_state_change half_lit
    (mkStateChangeArgs (Some true) None
       (mkLightOnArgs (Some 127) None None None (Some 5%Q) None)) = true.
Proof.
  refine (proj1 (X19_timer_forces_write half_lit
                   (mkLightOnArgs (Some 127) None None None (Some 5%Q) None) _)).
  right. eauto.
Defined.

End DimmerMoreFacts.

Section VariantFacts.
Import Light LightVariants.

(** [turn_on_with] at the methods of [CeDimmer] is [CeDimmer.turn_on]. *)
Lemma turn_on_with_base (e : CeDimmer.CeDimmer) (kwargs : LightOnArgs) :
  turn_on_with CeDimmer._set_ramp_time_on_value CeDimmer._set_on_time_value e kwargs
  = CeDimmer.turn_on e kwargs.
Proof. reflexivity. Qed.

Lemma convert_color_is_a_color (hs : Q * Q) :
  CeIpFixedColorLight._NO_COLOR (_convert_color hs) = false.
Proof.
  unfold _convert_color.
  repeat match goal with
         | |- context [if ?b then _ else _] => destruct b
         end; reflexivity.
Qed.

(** X20.  The palette round trip: every colour that has an entry in
    [_FIXED_COLOR_SWITCHER] is what [_convert_color] returns for that
    entry; [_convert_color] never returns BLACK, DO_NOT_CARE or
    OLD_VALUE; and a light whose colour has no entry (or is unset)
    reports an [hs_color] that converts to WHITE. *)
Theorem X20_fixed_color_round_trip (color : FixedColor) (hs : Q * Q) :
  (CeIpFixedColorLight._FIXED_COLOR_SWITCHER color = Some hs →
   _convert_color hs = color)
  ∧ CeIpFixedColorLight._NO_COLOR (_convert_color hs) = false
  ∧ (∀ e,
       CeIpFixedColorLight._FIXED_COLOR_SWITCHER
         (default BLACK (CeIpFixedColorLight._e_color_value e)) = None →
       _convert_color (CeIpFixedColorLight.hs_color e) = WHITE).
Proof.
  split; [|split].
  - destruct color; cbn; intros H; try discriminate; injection H as <-;
      reflexivity.
  - apply convert_color_is_a_color.
  - intros [lv ot [c|]]; cbn; [|reflexivity].
    unfold CeIpFixedColorLight.hs_color. cbn.
    destruct c; cbn; intros H; try discriminate; reflexivity.
Qed.

Lemma X20_fixed_color_round_trip_witness :
  _convert_color (240, 100)%Q = BLUE.
Proof.
  apply (proj1 (X20_fixed_color_round_trip BLUE (240, 100)%Q)). reflexivity.
Defined.

(** X21.  A [turn_on] of the fixed-colour light that passes the guard:
    with [hs_color] passed its first send is the converted colour;
    without, when the light shows one of the three no-colours, its first
    send is WHITE; no send ever sets one of the three no-colours; and
    the last send is the LEVEL write of the dimmer. *)
Theorem X21_fixed_color_turn_on (e : CeIpFixedColorLight.CeIpFixedColorLight)
    (kwargs : LightOnArgs) :
  CeDimmer.is_state_change (CeIpFixedColorLight.as_dimmer e)
    (mkStateChangeArgs (Some true) None kwargs) = true →
  let sends := snd (CeIpFixedColorLight.turn_on e kwargs) in
  (∀ hs, hs_color kwargs = Some hs →
         head sends = Some (ToFixedColor (_convert_color hs)))
  ∧ (∀ color, hs_color kwargs = None →
              CeIpFixedColorLight.color_name e = Some color →
              CeIpFixedColorLight._NO_COLOR color = true →
              head sends = Some (ToFixedColor WHITE))
  ∧ (∀ color, ToFixedColor color ∈ sends →
              CeIpFixedColorLight._NO_COLOR color = false)
  ∧ ∃ level, last sends = Some (ToDimmer (LEVEL, VFloat level)).
Proof.
  intros Hguard sends. subst sends. unfold CeIpFixedColorLight.turn_on.
  rewrite Hguard. cbn [negb].
  assert (∃ ws level,
            snd (turn_on_with CeIpFixedColorLight._set_ramp_time_on_value
                   CeIpFixedColorLight._set_on_time_value
                   (CeIpFixedColorLight.as_dimmer e) kwargs)
            = ws ++ [(LEVEL, VFloat level)]) as (ws & level & Hws).
  { unfold turn_on_with. rewrite Hguard. cbn [negb].
    destruct (match CeDimmer.if_truthy (on_time kwargs) with
              | Some t => _ | None => _ end) as [e' w_on].
    cbn [snd]. eexists (_ ++ w_on), _. rewrite <- app_assoc. reflexivity. }
  destruct (turn_on_with _ _ _ _) as [d ws']. cbn [snd] in *. subst ws'.
  rewrite map_app. cbn [map].
  unfold CeIpFixedColorLight.color_sends, CeIpFixedColorLight.color_name.
  split; [|split; [|split]].
  - intros hs ->. reflexivity.
  - intros color -> Hc Hno. unfold CeIpFixedColorLight.color_name in Hc.
    rewrite Hc, Hno. reflexivity.
  - intros color Hin.
    assert (∀ l : list Write, ToFixedColor color ∉ map ToDimmer l) as Hnot.
    { intros l H. apply list_elem_of_fmap in H as (w & Hw & _). discriminate. }
    apply elem_of_app in Hin as [Hin|Hin].
    + destruct (hs_color kwargs) as [hs|].
      * apply list_elem_of_singleton in Hin. injection Hin as ->.
        apply convert_color_is_a_color.
      * destruct (CeIpFixedColorLight._e_color_value e) as [c|];
          [|apply elem_of_nil in Hin; contradiction].
        destruct (CeIpFixedColorLight._NO_COLOR c);
          [|apply elem_of_nil in Hin; contradiction].
        apply list_elem_of_singleton in Hin. injection Hin as ->. reflexivity.
    + apply elem_of_app in Hin as [Hin|Hin];
        [exact (False_ind _ (Hnot _ Hin)) | exact (False_ind _ (Hnot [_] Hin))].
  - exists level. rewrite app_assoc. apply last_snoc.
Qed.

End VariantFacts.

Lemma X21_fixed_color_turn_on_witness :
  head (snd (LightVariants.CeIpFixedColorLight.turn_on
               LightVariants.CeIpFixedColorLight.dark
               LightVariants.CeIpFixedColorLight.blueish))
    = Some (LightVariants.ToFixedColor Light.TURQUOISE)
  ∧ head (snd (LightVariants.CeIpFixedColorLight.turn_on
                 LightVariants.CeIpFixedColorLight.dark Light.no_args))
      = Some (LightVariants.ToFixedColor Light.WHITE).
Proof.
  split.
  - refine (proj1 (X21_fixed_color_turn_on
                     LightVariants.CeIpFixedColorLight.dark
                     LightVariants.CeIpFixedColorLight.blueish _)
                  (200, 100)%Q _).
    + vm_compute. reflexivity.
    + reflexivity.
  - refine (proj1 (proj2 (X21_fixed_color_turn_on
                            LightVariants.CeIpFixedColorLight.dark
                            Light.no_args _)) Light.BLACK _ _ _);
      reflexivity.
Defined.

(* ===================================================================== *)
(** * Properties of CeSwitch                                              *)
(* ===================================================================== *)

Section SwitchFacts.
Import Switch.

(** X22.  The switch writes unless it knows better.  [turn_on] with an
    on-time (0 included) always sends the on-time and then the state,
    whatever the state is.  Without one, [turn_on] ends with the state
    write unless the state is known to be on, and [turn_off] writes
    unless the state is known to be off: an unknown state suppresses
    neither. *)
Theorem X22_switch_writes (e : CeSwitch) :
  (∀ on_time,
     turn_on e (Some on_time) = (e, [ToOnTimeValue on_time; StateTurnOn]))
  ∧ (value e ≠ Some true → last (snd (turn_on e None)) = Some StateTurnOn)
  ∧ (value e ≠ Some false → turn_off e = (e, [StateTurnOff]))
  ∧ (value e = None →
     last (snd (turn_on e None)) = Some StateTurnOn
     ∧ snd (turn_off e) = [StateTurnOff]).
Proof.
  assert (value e ≠ Some true →
          last (snd (turn_on e None)) = Some StateTurnOn) as Hon.
  { intros Hv. unfold turn_on, is_state_change. cbn.
    rewrite (bool_decide_eq_false_2 _ Hv). cbn.
    destruct (Light.CeDimmer.if_truthy (_on_time e)); reflexivity. }
  assert (value e ≠ Some false → turn_off e = (e, [StateTurnOff])) as Hoff.
  { intros Hv. unfold turn_off, is_state_change. cbn.
    rewrite (bool_decide_eq_false_2 _ Hv). reflexivity. }
  split; [|split; [exact Hon | split; [exact Hoff|]]].
  - intros t. reflexivity.
  - intros Hnone. split.
    + apply Hon. rewrite Hnone. discriminate.
    + rewrite Hoff; [reflexivity|]. rewrite Hnone. discriminate.
Qed.

Lemma X22_switch_writes_witness :
  last (snd (turn_on unknown None)) = Some StateTurnOn
  ∧ snd (turn_off unknown) = [StateTurnOff].
Proof.
  apply (proj2 (proj2 (proj2 (X22_switch_writes unknown)))). reflexivity.
Defined.

End SwitchFacts.

(* ===================================================================== *)
(** * Properties of CeIpRGBWLight and CeColorDimmer                       *)
(* ===================================================================== *)

Section RGBWFacts.
Import Light LightVariants LightVariants.CeIpRGBWLight.



End RGBWFacts.


Section RGBWModeFacts.
Import Light LightVariants LightVariants.CeIpRGBWLight.

(** X24.  The operation mode and what it makes of the light.  The level
    is always a relevant entity; hue and saturation are relevant exactly
    when [supports_hs_color] holds, which excludes
    [supports_color_temperature]; where [supports_color_temperature]
    holds the Kelvin entity is relevant; in PWM mode (and with no mode)
    only the level is relevant and no colour capability is advertised;
    and a light that does not support effects sends no effect, whatever
    is asked. *)
Theorem X24_operation_mode (e : CeIpRGBWLight) :
  E_LEVEL ∈ _relevant_entities e
  ∧ (E_HUE ∈ _relevant_entities e ↔ supports_hs_color e = true)
  ∧ (E_SATURATION ∈ _relevant_entities e ↔ supports_hs_color e = true)
  ∧ (supports_hs_color e = true → supports_color_temperature e = false)
  ∧ (supports_color_temperature e = true →
     E_COLOR_TEMPERATURE_KELVIN ∈ _relevant_entities e)
  ∧ (_e_device_operation_mode_value e = Some PWM
     ∨ _e_device_operation_mode_value e = None →
     _relevant_entities e = [E_LEVEL]
     ∧ supports_hs_color e = false
     ∧ supports_color_temperature e = false)
  ∧ (_e_device_operation_mode_value e = Some PWM → supports_effects e = false)
  ∧ (supports_effects e = false → ∀ kwargs, effect_sends e kwargs = []).
Proof.
  assert (supports_effects e = false → ∀ kwargs, effect_sends e kwargs = [])
    as Hnone.
  { intros H kwargs. unfold effect_sends. rewrite H. reflexivity. }
  revert Hnone.
  unfold _relevant_entities, supports_hs_color, supports_color_temperature,
    supports_effects.
  destruct (_e_device_operation_mode_value e) as [[]|]; cbn; intros Hnone;
    repeat split; try exact Hnone; try intros; try discriminate;
    try reflexivity;
    try (rewrite ?elem_of_cons, ?elem_of_nil in *; intuition discriminate);
    try (repeat (first [apply list_elem_of_here | apply list_elem_of_further]));
    try (destruct H; discriminate).
Qed.

End RGBWModeFacts.

Section ColorDimmerFacts.
Import Light LightVariants LightVariants.CeColorDimmer.

Lemma floor_bounds (x : Q) (a b : Z) :
  (inject_Z a <= x)%Q → (x <= inject_Z b)%Q → a ≤ floor x ≤ b.
Proof.
  unfold Qle, floor, inject_Z. destruct x as [n d]. cbn. intros Ha Hb. split.
  - apply Z.div_le_lower_bound; lia.
  - apply Z.div_le_upper_bound; lia.
Qed.

Lemma round_bounds (x : Q) (a b : Z) :
  (inject_Z a <= x)%Q → (x <= inject_Z b)%Q → a ≤ round x ≤ b.
Proof.
  intros Ha Hb. pose proof (floor_bounds x a b Ha Hb) as Hf.
  unfold round. unfold Qle, inject_Z in Ha, Hb. unfold floor in *.
  destruct x as [n d]. cbn in *.
  pose proof (Z.mul_div_le n (Zpos d) ltac:(lia)) as Hlo.
  pose proof (Z.mul_succ_div_gt n (Zpos d) ltac:(lia)) as Hhi.
  set (f := n / Zpos d) in *.
  destruct (Z.ltb_spec (2 * (n - f * Zpos d)) (Zpos d)); [lia|].
  assert (f < b) by nia.
  destruct (Z.ltb_spec (Zpos d) (2 * (n - f * Zpos d))); [lia|].
  destruct (Z.even f); lia.
Qed.

Lemma clamp_bounds (x : Q) : (0 <= Qmax (Qmin x 1) 0)%Q ∧ (Qmax (Qmin x 1) 0 <= 1)%Q.
Proof.
  unfold Qmax, Qmin.
  destruct (Qle_bool x 1) eqn:E1.
  - apply Qle_bool_iff in E1.
    destruct (Qle_bool 0 x) eqn:E2.
    + apply Qle_bool_iff in E2. auto.
    + split; [apply Qle_refl | discriminate].
  - cbn. split; discriminate.
Qed.

(** X25.  The colour code [CeColorDimmer.turn_on] sends is 200 or lies
    between 0 and 199; it is 200 whenever the saturation is below 10,
    whatever the hue, and every code from 200 on reads back as hue 0 and
    saturation 0. *)
Theorem X25_color_code_range (hs : Q * Q) :
  (color_code hs = 200 ∨ 0 ≤ color_code hs ≤ 199)
  ∧ ((snd hs < 10)%Q → color_code hs = 200)
  ∧ (∀ code, 200 ≤ code → hs_color (Some code) = (0, 0)%Q).
Proof.
  destruct hs as [khue ksat]. unfold color_code. split; [|split].
  - destruct (gt (1 # 10) (ksat / 100)); [left; reflexivity | right].
    destruct (clamp_bounds (khue / 360)) as [H0 H1].
    unfold int. cbn [inject_Z Qnum Qden]. rewrite Z.quot_1_r.
    apply round_bounds.
    + change (inject_Z 0) with (0 * 199)%Q.
      apply Qmult_le_compat_r; [exact H0 | discriminate].
    + change (inject_Z 199) with (1 * 199)%Q.
      apply Qmult_le_compat_r; [exact H1 | discriminate].
  - cbn [snd]. intros Hsat.
    assert (gt (1 # 10) (ksat / 100) = true) as ->; [|reflexivity].
    apply gt_true. apply Qlt_shift_div_r; [reflexivity|].
    eapply Qlt_le_trans; [exact Hsat | discriminate].
  - intros code Hcode. unfold hs_color.
    rewrite (proj2 (Z.leb_le 200 code) Hcode). reflexivity.
Qed.

Lemma X25_color_code_range_witness :
  color_code (120, 5)%Q = 200 ∧ hs_color (Some 200) = (0, 0)%Q.
Proof.
  split.
  - apply (proj1 (proj2 (X25_color_code_range (120, 5)%Q))).
    vm_compute. reflexivity.
  - apply (proj2 (proj2 (X25_color_code_range (120, 5)%Q))). lia.
Defined.

End ColorDimmerFacts.

Section BrightnessFacts.
Import Light Light.CeDimmer.



End BrightnessFacts.

Lemma X7_first_and_last_writer_witness :
  DeviceDetails.get_name
    (DeviceDetails.add_name "VCU0000001" "Renamed" DeviceDetails.sample_cache)
    "VCU0000002"
  = DeviceDetails.get_name DeviceDetails.sample_cache "VCU0000002".
Proof.
  refine (proj1 (proj2 (proj2 (proj2
            (X7_first_and_last_writer DeviceDetails.sample_cache
               "VCU0000001" "Renamed" "Renamed"))) "VCU0000002" _)).
  discriminate.
Defined.

Section ColorTempDimmerFacts.
Import Light LightVariants CeColorTempDimmer.

(** X27.  The colour-temperature dimmer stays in its range: a colour
    level between 0 and 1 reads as a colour temperature between 153 and
    500 mireds (500 when the level is unset), and a colour temperature
    between 153 and 500 is sent as a colour level between 0 and 1. *)
Theorem X27_color_temp_range (level : Q) (mireds : Z) :
  ((0 <= level)%Q → (level <= 1)%Q → 153 ≤ color_temp (Some level) ≤ 500)
  ∧ color_temp None = 500
  ∧ (153 ≤ mireds ≤ 500 →
     (0 <= color_level mireds)%Q ∧ (color_level mireds <= 1)%Q
     ∧ color_temp_sends (mkLightOnArgs None (Some mireds) None None None None)
         = [ToColorLevel (color_level mireds)]).
Proof.
  split; [|split].
  - intros H0 H1. unfold color_temp, CeDimmer.or_else, truthy, int.
    destruct (Qeq_bool level 0); cbn [negb].
    + split; vm_compute; discriminate.
    + destruct level as [n d]. unfold Qle in H0, H1. cbn in H0, H1 |- *.
      unfold _MAX_MIREDS, _MIN_MIREDS. rewrite !Pos.mul_1_l.
      split.
      * apply Z.quot_le_lower_bound; lia.
      * apply Z.quot_le_upper_bound; lia.
  - reflexivity.
  - intros Hm. unfold color_level, _MAX_MIREDS, _MIN_MIREDS. repeat split.
    + apply Qle_shift_div_l; [reflexivity|]. unfold Qle. cbn. lia.
    + apply Qle_shift_div_r; [reflexivity|]. unfold Qle. cbn. lia.
Qed.

Lemma X27_color_temp_range_witness :
  153 ≤ color_temp (Some 0.5%Q) ≤ 500
  ∧ (0 <= color_level 300)%Q.
Proof.
  split.
  - apply (proj1 (X27_color_temp_range 0.5%Q 300)); vm_compute; discriminate.
  - refine (proj1 (proj2 (proj2 (X27_color_temp_range 0.5%Q 300)) _)). lia.
Defined.

End ColorTempDimmerFacts.
